(** * TechCrunch startup scraper: fetch, parse, store, crawl

    A shallow embedding of [src/tech-crunch.py] (class [TechCrunchScraper])
    and the properties of its fetch -> parse -> dedup-persist loop.

    - Python [str] is [string] (its UTF-8 bytes); Python [int] is [Z]; a
      Python [dict] with a
      fixed key set is a record; the [articles] table is the list of its rows
      in insertion order.
    - The coroutines run sequentially (every [await] is awaited in place), so
      [async def] bodies are computations of a state-and-exception monad
      [M] over a [world] that holds the database and the logs of the
      [asyncio.sleep] and [session.get] calls.
    - What the program gets from outside is a parameter: the site
      ([net]), BeautifulSoup's view of a page ([soup_select]),
      [urllib.parse.urljoin] and the UTC clock. *)

From Stdlib Require Import List String Ascii ZArith Lia Bool Arith DecimalString Sorted.
From Stdlib Require DecimalNat DecimalFacts.
Import ListNotations.
Local Open Scope string_scope.
Local Open Scope Z_scope.

(** ** Python values used by the scraper *)

(** Truth value of a [str]: [if s] holds when [s] is not empty. *)
Definition truthy (s : string) : bool :=
  match s with
  | EmptyString => false
  | String _ _ => true
  end.

(** Truth value of a list: [if articles]. *)
Definition truthy_list {A : Type} (l : list A) : bool :=
  match l with
  | [] => false
  | _ :: _ => true
  end.

Module PyInt.

(** [int(s)] for an ASCII [str]: surrounding whitespace (tab, line feed,
    vertical tab, form feed, carriage return, space) is stripped, one
    optional sign, then decimal digits in which single underscores may
    separate digits.  [None] stands for [ValueError]. *)

Definition is_space (c : ascii) : bool :=
  let n := nat_of_ascii c in
  (((9 <=? n) && (n <=? 13)) || (n =? 32))%nat.

Definition digit_of (c : ascii) : option Z :=
  let n := nat_of_ascii c in
  if ((48 <=? n) && (n <=? 57))%nat then Some (Z.of_nat n - 48) else None.

Definition is_underscore (c : ascii) : bool := (nat_of_ascii c =? 95)%nat.

Fixpoint lstrip (cs : list ascii) : list ascii :=
  match cs with
  | c :: rest => if is_space c then lstrip rest else cs
  | [] => []
  end.

Definition strip (cs : list ascii) : list ascii :=
  rev (lstrip (rev (lstrip cs))).

(** The digits after the first one; [acc] is the value read so far. *)
Fixpoint more_digits (acc : Z) (cs : list ascii) : option Z :=
  match cs with
  | [] => Some acc
  | c :: rest =>
      match digit_of c with
      | Some d => more_digits (10 * acc + d) rest
      | None =>
          if is_underscore c then
            match rest with
            | c' :: rest' =>
                match digit_of c' with
                | Some d => more_digits (10 * acc + d) rest'
                | None => None
                end
            | [] => None
            end
          else None
      end
  end.

Definition digits (cs : list ascii) : option Z :=
  match cs with
  | c :: rest =>
      match digit_of c with
      | Some d => more_digits d rest
      | None => None
      end
  | [] => None
  end.

Definition of_chars (cs : list ascii) : option Z :=
  match strip cs with
  | c :: rest =>
      if (nat_of_ascii c =? 45)%nat then option_map Z.opp (digits rest)
      else if (nat_of_ascii c =? 43)%nat then digits rest
      else digits (c :: rest)
  | [] => None
  end.

Definition of_string (s : string) : option Z :=
  of_chars (list_ascii_of_string s).

End PyInt.

(** ** Data model *)

(** The exceptions that cross a function boundary of the scraper.
    [ClientError] is [aiohttp.ClientError] (and its subclasses),
    [ValueError] the builtin, [OtherError] anything else a request can
    raise that is not a [ClientError] (a total timeout, a cancellation). *)
Inductive exn : Type :=
| ClientError
| ValueError
| OtherError.

Definition is_ClientError (e : exn) : bool :=
  match e with
  | ClientError => true
  | _ => false
  end.

(** What [fetch_page] reads from an [aiohttp] response: [response.status],
    [response.headers.get('Retry-After')] and [await response.text()]. *)
Record response : Type := mkResponse {
  status : Z;
  retry_after_header : option string;
  text : string
}.

(** One [session.get(url)] (with the read of the body): a response, or an
    exception raised inside the [async with]. *)
Inductive get_outcome : Type :=
| Responds (r : response)
| Throws (e : exn).

(** The site: the outcome of the request made by attempt number [attempt]
    of the [fetch_page] call for [url].  A crawl asks for every page url in
    one [fetch_page] call, so this fixes the whole conversation of a crawl
    with the site. *)
Definition network : Type := string -> nat -> get_outcome.

(** The dict that [parse_articles] appends: keys [title], [url],
    [date_published], [excerpt]. *)
Record article : Type := mkArticle {
  title : string;
  url : string;
  date_published : string;
  excerpt : string
}.

(** BeautifulSoup's view of one [article.post-block]:
    - [title_elem]: [select_one('h2.post-block__title a')], as the pair of
      its [get_text(strip=True)] and its [href] attribute, when found;
    - [date_elem]: [select_one('time')], as its [datetime] attribute
      ([Some None]: a [time] element without that attribute);
    - [excerpt_elem]: [select_one('div.post-block__content')], as its
      [get_text(strip=True)]. *)
Record block : Type := mkBlock {
  title_elem : option (string * option string);
  date_elem : option (option string);
  excerpt_elem : option string
}.

(** A row of table [articles]: [id INTEGER PRIMARY KEY AUTOINCREMENT],
    [title TEXT NOT NULL], [url TEXT UNIQUE NOT NULL], [date_published],
    [excerpt], [scraped_at]. *)
Record row : Type := mkRow {
  row_id : Z;
  row_title : string;
  row_url : string;
  row_date_published : string;
  row_excerpt : string;
  row_scraped_at : string
}.

(** The database file: the rows of [articles] in insertion order and the
    AUTOINCREMENT counter kept in [sqlite_sequence].  [setup_database]
    ([CREATE TABLE IF NOT EXISTS]) creates the empty table in a new file
    and leaves the table of an existing file as it is. *)
Record database : Type := mkDatabase {
  rows : list row;
  sequence : Z
}.

(** Everything a crawl can change or observe changing. *)
Record world : Type := mkWorld {
  db : database;
  slept : list Z;
  requested : list string;
  clock_reads : nat
}.

(** The default of [__init__]'s [base_url]. *)
Definition default_base_url : string :=
  "https://techcrunch.com/category/startups/".

(** ** Computations: state and exceptions *)

Inductive result (A : Type) : Type :=
| Ok (a : A)
| Raise (e : exn).
Arguments Ok {A} a.
Arguments Raise {A} e.

Definition M (A : Type) : Type := world -> result A * world.

Definition ret {A : Type} (a : A) : M A := fun w => (Ok a, w).

Definition bind {A B : Type} (m : M A) (k : A -> M B) : M B :=
  fun w =>
    match m w with
    | (Ok a, w') => k a w'
    | (Raise e, w') => (Raise e, w')
    end.

Definition raise {A : Type} (e : exn) : M A := fun w => (Raise e, w).

(** [try: body  except <catches>: handler]. *)
Definition try_except {A : Type} (body : M A) (catches : exn -> bool)
    (handler : exn -> M A) : M A :=
  fun w =>
    match body w with
    | (Raise e, w') => if catches e then handler e w' else (Raise e, w')
    | (Ok a, w') => (Ok a, w')
    end.

Declare Scope py_scope.
Delimit Scope py_scope with py.
Notation "x <- m ;; k" := (bind m (fun x => k))
  (at level 100, m at next level, right associativity) : py_scope.
Notation "m ;;; k" := (bind m (fun _ => k))
  (at level 100, right associativity) : py_scope.
Local Open Scope py_scope.

(** [for x in xs: body x]. *)
Fixpoint for_each {A : Type} (xs : list A) (body : A -> M unit) : M unit :=
  match xs with
  | [] => ret tt
  | x :: rest => body x ;;; for_each rest body
  end.

(** [await asyncio.sleep(seconds)]. *)
Definition sleep (seconds : Z) : M unit :=
  fun w => (Ok tt, mkWorld (db w) (slept w ++ [seconds]) (requested w) (clock_reads w)).

(** [session.get(url)] by attempt [attempt] of a [fetch_page] call. *)
Definition session_get (net : network) (url : string) (attempt : nat) : M response :=
  fun w =>
    let w' := mkWorld (db w) (slept w) (requested w ++ [url]) (clock_reads w) in
    match net url attempt with
    | Responds r => (Ok r, w')
    | Throws e => (Raise e, w')
    end.

(** [int(response.headers.get('Retry-After', 5))]: the header read as an
    integer, 5 when the response has none; [None] when [int] raises. *)
Definition retry_after_int (r : response) : option Z :=
  match retry_after_header r with
  | None => Some 5
  | Some v => PyInt.of_string v
  end.

Definition retry_after_seconds (r : response) : M Z :=
  match retry_after_int r with
  | Some n => ret n
  | None => raise ValueError
  end.

(** ** The Page Fetcher: [fetch_page] *)

Section Fetcher.

Variable net : network.

(** What a pass through the loop body decides: [Some v] is [return v],
    [None] goes on to the next attempt. *)
Definition fetch_attempt (max_retries : Z) (url : string) (attempt : nat)
  : M (option string) :=
  try_except
    (response <- session_get net url attempt ;;
     if status response =? 200 then ret (Some (text response))
     else if status response =? 429 then
       (retry_after <- retry_after_seconds response ;;
        sleep retry_after ;;;
        ret None)
     else ret (Some ""))
    is_ClientError
    (fun _ =>
       (if Z.of_nat attempt <? max_retries - 1
        then sleep (2 ^ Z.of_nat attempt)
        else ret tt) ;;;
       ret None).

(** [for attempt in attempts: ...], then [return ""]. *)
Fixpoint fetch_attempts (max_retries : Z) (url : string) (attempts : list nat)
  : M string :=
  match attempts with
  | [] => ret ""
  | attempt :: rest =>
      r <- fetch_attempt max_retries url attempt ;;
      match r with
      | Some v => ret v
      | None => fetch_attempts max_retries url rest
      end
  end.

(** The body of [fetch_page] for a given value of its local [max_retries]. *)
Definition fetch_page_with (max_retries : nat) (url : string) : M string :=
  fetch_attempts (Z.of_nat max_retries) url (seq 0 max_retries).

(** [fetch_page]: [max_retries = 3]. *)
Definition fetch_page (url : string) : M string := fetch_page_with 3 url.

End Fetcher.

(** ** URLs *)

Module Url.

(** [urllib.parse.urljoin(base, ref)] on the references a listing page
    carries: an absolute reference (with a scheme) is kept, [//host/path]
    takes the scheme of [base], [/path] the scheme and host of [base], and
    any other reference replaces what follows the last [/] of the path of
    [base].  It agrees with the library on bases [scheme://host/path]
    without query or fragment and on references without dot segments,
    empty segments, query or fragment. *)

Definition is_alpha (c : ascii) : bool :=
  let n := nat_of_ascii c in
  (((65 <=? n) && (n <=? 90)) || ((97 <=? n) && (n <=? 122)))%nat.

Definition is_scheme_char (c : ascii) : bool :=
  let n := nat_of_ascii c in
  (is_alpha c || ((48 <=? n) && (n <=? 57)) || (n =? 43) || (n =? 45) || (n =? 46))%nat.

Definition is_colon (c : ascii) : bool := (nat_of_ascii c =? 58)%nat.
Definition is_slash (c : ascii) : bool := (nat_of_ascii c =? 47)%nat.

(** The scheme of [cs] (without the colon) and what follows the colon. *)
Fixpoint split_scheme_rest (seen : list ascii) (cs : list ascii)
  : option (list ascii * list ascii) :=
  match cs with
  | [] => None
  | c :: rest =>
      if is_colon c then
        match seen with
        | [] => None
        | _ :: _ => Some (rev seen, rest)
        end
      else if is_scheme_char c then split_scheme_rest (c :: seen) rest
      else None
  end.

Definition split_scheme (cs : list ascii) : option (list ascii * list ascii) :=
  match cs with
  | c :: _ => if is_alpha c then split_scheme_rest [] cs else None
  | [] => None
  end.

(** [cs] up to its first [/] (excluded), and the rest from that [/] on. *)
Fixpoint break_slash (cs : list ascii) : list ascii * list ascii :=
  match cs with
  | [] => ([], [])
  | c :: rest =>
      if is_slash c then ([], cs)
      else let (a, b) := break_slash rest in (c :: a, b)
  end.

(** [cs] up to and including its last [/]; empty when it has none. *)
Fixpoint upto_last_slash (cs : list ascii) : list ascii :=
  match cs with
  | [] => []
  | c :: rest =>
      match upto_last_slash rest with
      | [] => if is_slash c then [c] else []
      | d => c :: d
      end
  end.

Definition colon : ascii := ascii_of_nat 58.
Definition slash : ascii := ascii_of_nat 47.

Definition join_chars (base ref : list ascii) : list ascii :=
  match base, ref with
  | [], _ => ref
  | _, [] => base
  | _, r0 :: rtail =>
      match split_scheme ref with
      | Some _ => ref
      | None =>
          match split_scheme base with
          | Some (scheme, s1 :: s2 :: after) =>
              if is_slash s1 && is_slash s2 then
                let (host, path) := break_slash after in
                let origin := (scheme ++ colon :: slash :: slash :: host)%list in
                if is_slash r0 then
                  match rtail with
                  | r1 :: _ =>
                      if is_slash r1 then (scheme ++ colon :: ref)%list
                      else (origin ++ ref)%list
                  | [] => (origin ++ ref)%list
                  end
                else
                  match upto_last_slash path with
                  | [] => (origin ++ slash :: ref)%list
                  | dir => (origin ++ dir ++ ref)%list
                  end
              else ref
          | _ => ref
          end
      end
  end.

Definition urljoin (base ref : string) : string :=
  string_of_list_ascii
    (join_chars (list_ascii_of_string base) (list_ascii_of_string ref)).

End Url.

(** ** The Record Extractor: [parse_articles] *)

Section Extractor.

(** [self.base_url]. *)
Variable base_url : string.

(** [urllib.parse.urljoin]. *)
Variable urljoin : string -> string -> string.

(** [BeautifulSoup(html, 'html.parser').select('article.post-block')],
    each block with what the three [select_one] calls find in it; [None]
    when the library raises. *)
Variable soup_select : string -> option (list block).

(** [title_elem.get_text(strip=True) if title_elem else ""]. *)
Definition block_title (b : block) : string :=
  match title_elem b with
  | Some (txt, _) => txt
  | None => ""
  end.

(** [urljoin(self.base_url, title_elem['href'])
    if title_elem and title_elem.get('href') else ""]. *)
Definition block_url (b : block) : string :=
  match title_elem b with
  | Some (_, Some href) => if truthy href then urljoin base_url href else ""
  | _ => ""
  end.

(** [date_elem['datetime'] if date_elem else ""]; [None] when the [time]
    element has no [datetime] attribute and the subscript raises
    [KeyError]. *)
Definition block_date_published (b : block) : option string :=
  match date_elem b with
  | Some (Some datetime) => Some datetime
  | Some None => None
  | None => Some ""
  end.

(** [excerpt_elem.get_text(strip=True) if excerpt_elem else ""]. *)
Definition block_excerpt (b : block) : string :=
  match excerpt_elem b with
  | Some txt => txt
  | None => ""
  end.

(** The article one pass through the loop body appends, if any: the body
    of the inner [try], whose [except Exception] turns the [KeyError]
    into [continue]. *)
Definition parse_block (b : block) : option article :=
  let title := block_title b in
  let url := block_url b in
  match block_date_published b with
  | None => None
  | Some date_published =>
      let excerpt := block_excerpt b in
      if truthy title && truthy url
      then Some (mkArticle title url date_published excerpt)
      else None
  end.

(** [articles = []; for block in article_blocks: ... articles.append(..)]. *)
Definition parse_blocks (article_blocks : list block) : list article :=
  fold_left
    (fun articles b =>
       match parse_block b with
       | Some a => (articles ++ [a])%list
       | None => articles
       end)
    article_blocks [].

Definition parse_articles (html : string) : list article :=
  match soup_select html with
  | Some article_blocks => parse_blocks article_blocks
  | None => []
  end.

End Extractor.

(** ** The Deduplicating Store: table [articles] and [save_articles] *)

Definition url_stored (u : string) (rs : list row) : bool :=
  existsb (fun r => String.eqb (row_url r) u) rs.

Definition max_rowid (rs : list row) : Z :=
  fold_right (fun r m => Z.max (row_id r) m) 0 rs.

(** [INSERT OR IGNORE INTO articles (title, url, date_published, excerpt,
    scraped_at) VALUES (?, ?, ?, ?, ?)]: a row whose [url] is already in the
    table is dropped by the [UNIQUE] constraint, any other is appended under
    a fresh [id].  SQLite may or may not reuse the [id] computed for a
    dropped row; here the counter moves on every statement. *)
Definition insert_or_ignore (t u dp ex sa : string) (d : database) : database :=
  let rowid := Z.max (sequence d) (max_rowid (rows d)) + 1 in
  if url_stored u (rows d)
  then mkDatabase (rows d) rowid
  else mkDatabase (rows d ++ [mkRow rowid t u dp ex sa])%list rowid.

(** [cursor.execute] of that statement. *)
Definition cursor_execute_insert (t u dp ex sa : string) : M unit :=
  fun w =>
    (Ok tt,
     mkWorld (insert_or_ignore t u dp ex sa (db w))
             (slept w) (requested w) (clock_reads w)).

Section Store.

(** The clock: what the [n]-th [datetime.utcnow().isoformat()] returns. *)
Variable clock : nat -> string.

Definition utcnow_isoformat : M string :=
  fun w =>
    (Ok (clock (clock_reads w)),
     mkWorld (db w) (slept w) (requested w) (S (clock_reads w))).

(** [save_articles], the database file being available. *)
Definition save_articles (articles : list article) : M unit :=
  scraped_at <- utcnow_isoformat ;;
  for_each articles
    (fun a =>
       cursor_execute_insert
         (title a) (url a) (date_published a) (excerpt a) scraped_at).

End Store.

(** ** The Pagination Driver: [scrape] *)

(** [f"{page}"]. *)
Definition str_of_nat (n : nat) : string :=
  NilZero.string_of_uint (Nat.to_uint n).

Section Driver.

Variable base_url : string.
Variable urljoin : string -> string -> string.
Variable soup_select : string -> option (list block).
Variable clock : nat -> string.
Variable net : network.

Definition page_url (page : nat) : string :=
  if (1 <? page)%nat
  then base_url ++ "page/" ++ str_of_nat page ++ "/"
  else base_url.

(** One pass through the loop body of [scrape]. *)
Definition scrape_page (page : nat) : M unit :=
  let url := page_url page in
  html <- fetch_page net url ;;
  if negb (truthy html) then ret tt
  else
    let articles := parse_articles base_url urljoin soup_select html in
    (if truthy_list articles then save_articles clock articles else ret tt) ;;;
    sleep 2.

(** The pages [range(1, max_pages + 1)] goes through. *)
Definition page_range (max_pages : Z) : list nat :=
  seq 1 (Z.to_nat max_pages).

Definition scrape (max_pages : Z) : M unit :=
  for_each (page_range max_pages) scrape_page.

End Driver.

(** * Properties *)

(** ** Running computations *)

Lemma bind_run {A B : Type} (m : M A) (k : A -> M B) (w w' : world) (a : A) :
  m w = (Ok a, w') -> bind m k w = k a w'.
Proof. intros H. unfold bind. rewrite H. reflexivity. Qed.

Lemma bind_raise {A B : Type} (m : M A) (k : A -> M B) (w w' : world) (e : exn) :
  m w = (Raise e, w') -> bind m k w = (Raise e, w').
Proof. intros H. unfold bind. rewrite H. reflexivity. Qed.

Lemma for_each_app {A : Type} (xs ys : list A) (body : A -> M unit) (w : world) :
  for_each (xs ++ ys) body w = (for_each xs body ;;; for_each ys body) w.
Proof.
  revert w. induction xs as [|x xs IH]; intros w; simpl.
  - reflexivity.
  - unfold bind. destruct (body x w) as [[[]|e] w1].
    + rewrite IH. unfold bind. reflexivity.
    + reflexivity.
Qed.

(** The world after some more sleeps and requests, the database and the
    clock left alone. *)
Definition logged (sl : list Z) (rq : list string) (w : world) : world :=
  mkWorld (db w) (slept w ++ sl) (requested w ++ rq) (clock_reads w).

Lemma logged_nil (w : world) : logged [] [] w = w.
Proof. destruct w. unfold logged. simpl. rewrite !app_nil_r. reflexivity. Qed.

Lemma logged_logged (sl1 sl2 : list Z) (rq1 rq2 : list string) (w : world) :
  logged sl2 rq2 (logged sl1 rq1 w) = logged (sl1 ++ sl2) (rq1 ++ rq2) w.
Proof. unfold logged. simpl. rewrite !app_assoc. reflexivity. Qed.

Lemma sleep_run (n : Z) (w : world) : sleep n w = (Ok tt, logged [n] [] w).
Proof. unfold sleep, logged. rewrite app_nil_r. reflexivity. Qed.

Lemma session_get_run (net : network) (u : string) (k : nat) (w : world) :
  session_get net u k w =
  (match net u k with Responds r => Ok r | Throws e => Raise e end,
   logged [] [u] w).
Proof.
  unfold session_get, logged. rewrite app_nil_r.
  destruct (net u k); reflexivity.
Qed.

(** ** The Page Fetcher *)

Section FetcherFacts.

Variable net : network.

(** An attempt that ends in [aiohttp.ClientError]. *)
Lemma fetch_attempt_client_error (mr : Z) (u : string) (k : nat) (w : world) :
  net u k = Throws ClientError ->
  fetch_attempt net mr u k w =
  (Ok None,
   logged (if Z.of_nat k <? mr - 1 then [2 ^ Z.of_nat k] else []) [u] w).
Proof.
  intros H. unfold fetch_attempt, try_except, bind.
  rewrite session_get_run, H. simpl.
  destruct (Z.of_nat k <? mr - 1).
  - rewrite sleep_run, logged_logged. reflexivity.
  - unfold ret. reflexivity.
Qed.

(** An attempt answered by [200]. *)
Lemma fetch_attempt_200 (mr : Z) (u : string) (k : nat) (w : world) (r : response) :
  net u k = Responds r -> status r = 200 ->
  fetch_attempt net mr u k w = (Ok (Some (text r)), logged [] [u] w).
Proof.
  intros H H200. unfold fetch_attempt, try_except, bind.
  rewrite session_get_run, H, H200. reflexivity.
Qed.

(** An attempt answered by [429] whose [Retry-After] is absent or an
    integer. *)
Lemma fetch_attempt_429 (mr : Z) (u : string) (k : nat) (w : world)
    (r : response) (n : Z) :
  net u k = Responds r -> status r = 429 ->
  retry_after_int r = Some n ->
  fetch_attempt net mr u k w = (Ok None, logged [n] [u] w).
Proof.
  intros H H429 Hn. unfold fetch_attempt, try_except, bind.
  rewrite session_get_run, H, H429. simpl.
  unfold retry_after_seconds. rewrite Hn.
  unfold ret, logged. simpl. rewrite app_nil_r. reflexivity.
Qed.

(** An attempt answered by [429] whose [Retry-After] is not an integer. *)
Lemma fetch_attempt_429_unparseable (mr : Z) (u : string) (k : nat) (w : world)
    (r : response) :
  net u k = Responds r -> status r = 429 ->
  retry_after_int r = None ->
  fetch_attempt net mr u k w = (Raise ValueError, logged [] [u] w).
Proof.
  intros H H429 Hint. unfold fetch_attempt, try_except, bind.
  rewrite session_get_run, H, H429. simpl.
  unfold retry_after_seconds. rewrite Hint. reflexivity.
Qed.

(** An attempt answered by any other status. *)
Lemma fetch_attempt_other_status (mr : Z) (u : string) (k : nat) (w : world)
    (r : response) :
  net u k = Responds r -> status r <> 200 -> status r <> 429 ->
  fetch_attempt net mr u k w = (Ok (Some ""), logged [] [u] w).
Proof.
  intros H H200 H429. unfold fetch_attempt, try_except, bind.
  rewrite session_get_run, H.
  destruct (Z.eqb_spec (status r) 200) as [E|_]; [contradiction|].
  destruct (Z.eqb_spec (status r) 429) as [E|_]; [contradiction|].
  reflexivity.
Qed.

(** An attempt makes one request and only adds to the two logs; what it
    adds, like what it returns, does not depend on the world it starts
    from. *)
Lemma fetch_attempt_frame (mr : Z) (u : string) (k : nat) :
  exists v sl, forall w, fetch_attempt net mr u k w = (v, logged sl [u] w).
Proof.
  destruct (net u k) as [r|e] eqn:H.
  - destruct (Z.eq_dec (status r) 200) as [H200|H200].
    + eexists _, _. intros w. apply (fetch_attempt_200 _ _ _ _ _ H H200).
    + destruct (Z.eq_dec (status r) 429) as [H429|H429].
      * destruct (retry_after_int r) as [n|] eqn:Hint.
        -- eexists _, _. intros w.
           apply (fetch_attempt_429 _ _ _ _ _ n H H429 Hint).
        -- eexists _, _. intros w.
           apply (fetch_attempt_429_unparseable _ _ _ _ _ H H429 Hint).
      * eexists _, _. intros w.
        apply (fetch_attempt_other_status _ _ _ _ _ H H200 H429).
  - destruct e.
    + eexists _, _. intros w. apply (fetch_attempt_client_error _ _ _ _ H).
    + exists (Raise ValueError), []. intros w.
      unfold fetch_attempt, try_except, bind. rewrite session_get_run, H. reflexivity.
    + exists (Raise OtherError), []. intros w.
      unfold fetch_attempt, try_except, bind. rewrite session_get_run, H. reflexivity.
Qed.

(** The loop makes at most one request per attempt, all for [u], and at
    least one when there is an attempt to make. *)
Lemma fetch_attempts_frame (mr : Z) (u : string) (attempts : list nat) :
  exists v sl n,
    (n <= List.length attempts)%nat /\
    (attempts <> [] -> (1 <= n)%nat) /\
    forall w, fetch_attempts net mr u attempts w = (v, logged sl (repeat u n) w).
Proof.
  induction attempts as [|k rest IH]; simpl.
  - exists (Ok ""), [], 0%nat. split; [lia|]. split; [congruence|]. intros w.
    simpl. rewrite logged_nil. reflexivity.
  - destruct (fetch_attempt_frame mr u k) as (v & sl & Hk).
    destruct IH as (v' & sl' & n' & Hn' & _ & Hrest).
    destruct v as [[s|]|e].
    + exists (Ok s), sl, 1%nat. split; [lia|]. split; [lia|]. intros w.
      unfold bind. rewrite Hk. reflexivity.
    + exists v', (sl ++ sl')%list, (S n'). split; [lia|]. split; [lia|]. intros w.
      unfold bind. rewrite Hk, Hrest, logged_logged. reflexivity.
    + exists (Raise e), sl, 1%nat. split; [lia|]. split; [lia|]. intros w.
      unfold bind. rewrite Hk. reflexivity.
Qed.





End FetcherFacts.

(** The world of a first crawl: [setup_database] has just created the
    empty table, nothing was requested, no sleep was taken. *)
Definition fresh_world : world := mkWorld (mkDatabase [] 0) [] [] 0.

Lemma repeat_snoc {A : Type} (a : A) (n : nat) :
  (repeat a n ++ [a])%list = repeat a (S n).
Proof. induction n as [|n IH]; simpl; [reflexivity | rewrite IH; reflexivity]. Qed.

(** *** Retry bound *)

(** A site that fails twice at the network level, then serves the page. *)
Definition fails_twice (_ : string) (k : nat) : get_outcome :=
  if (k <? 2)%nat then Throws ClientError
  else Responds (mkResponse 200 None "<html>ok</html>").







(** *** Rate limiting *)





(** *** An unparseable [Retry-After] *)

(** A site that answers [429] with an HTTP-date in [Retry-After]. *)
Definition limited_until_date (_ : string) (_ : nat) : get_outcome :=
  Responds (mkResponse 429 (Some "Wed, 21 Oct 2015 07:28:00 GMT") "").

(** A site that answers [429] without a [Retry-After] header. *)
Definition limited_no_header (_ : string) (_ : nat) : get_outcome :=
  Responds (mkResponse 429 None "").

(** C6.  Without the header the loop sleeps the default 5 seconds after
    each [429]; with a [Retry-After] that [int] cannot read, the first
    attempt raises [ValueError] out of [fetch_page], no sleep taken:
    [except aiohttp.ClientError] does not catch it. *)
Theorem unparseable_retry_after_raises :
  fetch_page limited_no_header default_base_url fresh_world =
    (Ok "",
     logged [5; 5; 5] (repeat default_base_url 3) fresh_world)
  /\ fetch_page limited_until_date default_base_url
       fresh_world =
    (Raise ValueError,
     logged [] [default_base_url] fresh_world).
Proof. split; reflexivity. Qed.

(** ** The Record Extractor *)

Section ExtractorFacts.

Variable base_url : string.
Variable urljoin : string -> string -> string.
Variable soup_select : string -> option (list block).

(** What a block appends to [articles]. *)
Definition appended (b : block) : list article :=
  match parse_block base_url urljoin b with
  | Some a => [a]
  | None => []
  end.

Lemma parse_blocks_from (bs : list block) (acc : list article) :
  fold_left
    (fun articles b =>
       match parse_block base_url urljoin b with
       | Some a => (articles ++ [a])%list
       | None => articles
       end) bs acc
  = (acc ++ parse_blocks base_url urljoin bs)%list.
Proof.
  unfold parse_blocks.
  revert acc. induction bs as [|b bs IH]; intros acc; simpl.
  - rewrite app_nil_r. reflexivity.
  - rewrite IH. rewrite (IH (match parse_block base_url urljoin b with
                        | Some a => [a] | None => [] end)).
    destruct (parse_block base_url urljoin b); simpl.
    + rewrite <- app_assoc. reflexivity.
    + reflexivity.
Qed.

Lemma parse_blocks_cons (b : block) (bs : list block) :
  parse_blocks base_url urljoin (b :: bs)
  = (appended b ++ parse_blocks base_url urljoin bs)%list.
Proof.
  unfold parse_blocks at 1. simpl. rewrite parse_blocks_from.
  unfold appended. destruct (parse_block base_url urljoin b); reflexivity.
Qed.

Lemma parse_blocks_app (bs1 bs2 : list block) :
  parse_blocks base_url urljoin (bs1 ++ bs2)
  = (parse_blocks base_url urljoin bs1 ++ parse_blocks base_url urljoin bs2)%list.
Proof.
  induction bs1 as [|b bs1 IH].
  - reflexivity.
  - simpl app. rewrite !parse_blocks_cons, IH, app_assoc. reflexivity.
Qed.

(** A block that lacks a title or a url: what [if title and url] tests. *)
Definition missing_required (b : block) : Prop :=
  truthy (block_title b) = false \/ truthy (block_url base_url urljoin b) = false.

(** A block the loop body keeps: title and url present and no [time]
    element without [datetime]. *)
Definition well_formed (b : block) : bool :=
  truthy (block_title b) && truthy (block_url base_url urljoin b) &&
  match date_elem b with
  | Some None => false
  | _ => true
  end.

(** The dict built from a well-formed block. *)
Definition record_of (b : block) : article :=
  mkArticle (block_title b) (block_url base_url urljoin b)
    (match date_elem b with
     | Some (Some datetime) => datetime
     | _ => ""
     end)
    (block_excerpt b).

Lemma appended_missing (b : block) : missing_required b -> appended b = [].
Proof.
  unfold missing_required, appended, parse_block.
  intros [H|H]; rewrite H; destruct (block_date_published b);
    rewrite ?andb_false_r; reflexivity.
Qed.

Lemma appended_well_formed (b : block) :
  well_formed b = true -> appended b = [record_of b].
Proof.
  unfold well_formed, appended, parse_block, record_of,
    block_date_published.
  intros H. apply andb_prop in H as [H Hd]. rewrite H.
  destruct (date_elem b) as [[d|]|]; [reflexivity | discriminate | reflexivity].
Qed.

Lemma truthy_nonempty (s : string) : truthy s = true -> s <> "".
Proof. destruct s; [discriminate | intros _; discriminate]. Qed.

(** Every article comes from a block that has a title, and an [href]
    that gave its url. *)
Lemma parse_blocks_In (bs : list block) (a : article) :
  In a (parse_blocks base_url urljoin bs) ->
  exists b, In b bs /\ parse_block base_url urljoin b = Some a.
Proof.
  induction bs as [|b bs IH].
  - intros [].
  - rewrite parse_blocks_cons. intros H. apply in_app_or in H as [H|H].
    + exists b. split; [left; reflexivity|].
      unfold appended in H.
      destruct (parse_block base_url urljoin b) as [a'|]; [|destruct H].
      destruct H as [H|[]]. rewrite H. reflexivity.
    + destruct (IH H) as (b' & Hin & Hb'). exists b'. split; [right|]; assumption.
Qed.

Lemma parse_block_Some (b : block) (a : article) :
  parse_block base_url urljoin b = Some a ->
  title a = block_title b /\ url a = block_url base_url urljoin b /\
  truthy (title a) = true /\ truthy (url a) = true.
Proof.
  unfold parse_block.
  destruct (block_date_published b) as [d|]; [|discriminate].
  destruct (truthy (block_title b)) eqn:Ht; [|discriminate].
  destruct (truthy (block_url base_url urljoin b)) eqn:Hu; [|discriminate].
  simpl. intros H. inversion H. simpl. auto.
Qed.

(** C7, amended.  (1) A block without a title or without a url appends
    nothing and the blocks around it are read as if it were not there.
    (2) Every article [parse_articles] returns has a non-empty title and a
    non-empty url.  (3) Of five blocks, the third without a title and the
    other four with a title, a url and a [time] element, if any, that
    carries [datetime], [parse_articles] returns exactly the four records
    of these blocks, in order. *)
Theorem parse_articles_skips_malformed :
  (forall bs1 b bs2,
      missing_required b ->
      parse_blocks base_url urljoin (bs1 ++ b :: bs2)
      = (parse_blocks base_url urljoin bs1
         ++ parse_blocks base_url urljoin bs2)%list)
  /\ (forall html a,
      In a (parse_articles base_url urljoin soup_select html) ->
      title a <> "" /\ url a <> "")
  /\ (forall html b1 b2 b3 b4 b5,
      soup_select html = Some [b1; b2; b3; b4; b5] ->
      well_formed b1 = true -> well_formed b2 = true ->
      truthy (block_title b3) = false ->
      well_formed b4 = true -> well_formed b5 = true ->
      parse_articles base_url urljoin soup_select html
      = [record_of b1; record_of b2; record_of b4; record_of b5]).
Proof.
  split; [|split].
  - intros bs1 b bs2 Hb.
    rewrite parse_blocks_app, parse_blocks_cons, (appended_missing b Hb).
    reflexivity.
  - intros html a. unfold parse_articles.
    destruct (soup_select html) as [bs|]; [|intros []].
    intros H. apply parse_blocks_In in H as (b & _ & Hb).
    apply parse_block_Some in Hb as (_ & _ & Ht & Hu).
    split; apply truthy_nonempty; assumption.
  - intros html b1 b2 b3 b4 b5 Hsel H1 H2 H3 H4 H5.
    unfold parse_articles. rewrite Hsel.
    rewrite !parse_blocks_cons.
    rewrite (appended_well_formed b1 H1), (appended_well_formed b2 H2),
      (appended_missing b3 (or_introl H3)),
      (appended_well_formed b4 H4), (appended_well_formed b5 H5).
    reflexivity.
Qed.

(** C9, amended.  The url of every article is [urljoin] of
    [self.base_url] and the [href] of its block, on whatever page the
    block was found: [parse_articles] is not given the url of the page. *)
Theorem urls_resolved_against_base_url (html : string) (bs : list block)
    (a : article) :
  soup_select html = Some bs ->
  In a (parse_articles base_url urljoin soup_select html) ->
  exists b txt href,
    In b bs /\ title_elem b = Some (txt, Some href) /\ href <> "" /\
    url a = urljoin base_url href.
Proof.
  intros Hsel. unfold parse_articles. rewrite Hsel. intros H.
  apply parse_blocks_In in H as (b & Hin & Hb).
  apply parse_block_Some in Hb as (_ & Hurl & _ & Hu).
  rewrite Hurl in Hu |- *. unfold block_url in *.
  destruct (title_elem b) as [[txt [href|]]|] eqn:Helem; try discriminate.
  destruct (truthy href) eqn:Hh; [|discriminate].
  exists b, txt, href. repeat split; auto using truthy_nonempty.
Qed.

End ExtractorFacts.

(** ** The Deduplicating Store *)

Definition stored_urls (d : database) : list string := map row_url (rows d).

Lemma url_stored_In (u : string) (rs : list row) :
  url_stored u rs = true <-> In u (map row_url rs).
Proof.
  unfold url_stored. rewrite existsb_exists. split.
  - intros (r & Hr & He). apply String.eqb_eq in He. subst u.
    apply in_map. exact Hr.
  - intros H. apply in_map_iff in H as (r & He & Hr).
    exists r. split; [exact Hr | apply String.eqb_eq; exact He].
Qed.

Lemma url_stored_app (u : string) (rs rs' : list row) :
  url_stored u (rs ++ rs') = url_stored u rs || url_stored u rs'.
Proof. unfold url_stored. apply existsb_app. Qed.

(** [d'] is [d] with rows appended, none of them for a url [d] has. *)
Definition grows (d d' : database) : Prop :=
  exists added,
    rows d' = (rows d ++ added)%list /\
    forall r, In r added -> url_stored (row_url r) (rows d) = false.

Lemma grows_refl (d : database) : grows d d.
Proof. exists []. split; [rewrite app_nil_r; reflexivity | intros r []]. Qed.

Lemma grows_stored (d d' : database) (u : string) :
  grows d d' -> url_stored u (rows d) = true -> url_stored u (rows d') = true.
Proof.
  intros (added & Hrows & _) H. rewrite Hrows, url_stored_app, H. reflexivity.
Qed.

Lemma grows_trans (d1 d2 d3 : database) :
  grows d1 d2 -> grows d2 d3 -> grows d1 d3.
Proof.
  intros (a1 & H1 & F1) (a2 & H2 & F2).
  exists (a1 ++ a2)%list. split.
  - rewrite H2, H1, app_assoc. reflexivity.
  - intros r Hr. apply in_app_or in Hr as [Hr|Hr]; [apply F1; exact Hr|].
    specialize (F2 r Hr). rewrite H1, url_stored_app in F2.
    apply orb_false_elim in F2 as [F2 _]. exact F2.
Qed.

Lemma insert_or_ignore_stored (t u dp ex sa : string) (d : database) :
  url_stored u (rows d) = true ->
  rows (insert_or_ignore t u dp ex sa d) = rows d.
Proof. intros H. unfold insert_or_ignore. rewrite H. reflexivity. Qed.

Lemma insert_or_ignore_grows (t u dp ex sa : string) (d : database) :
  grows d (insert_or_ignore t u dp ex sa d).
Proof.
  unfold insert_or_ignore. destruct (url_stored u (rows d)) eqn:H.
  - exists []. split; [simpl; rewrite app_nil_r; reflexivity | intros r []].
  - eexists. split; [reflexivity|].
    intros r [Hr|[]]. subst r. simpl. exact H.
Qed.

Lemma insert_or_ignore_stores (t u dp ex sa : string) (d : database) :
  url_stored u (rows (insert_or_ignore t u dp ex sa d)) = true.
Proof.
  unfold insert_or_ignore. destruct (url_stored u (rows d)) eqn:H; simpl.
  - exact H.
  - rewrite url_stored_app. simpl. rewrite String.eqb_refl.
    apply orb_true_iff. right. reflexivity.
Qed.

Lemma insert_or_ignore_NoDup (t u dp ex sa : string) (d : database) :
  NoDup (stored_urls d) -> NoDup (stored_urls (insert_or_ignore t u dp ex sa d)).
Proof.
  unfold stored_urls, insert_or_ignore. intros H.
  destruct (url_stored u (rows d)) eqn:Hu; simpl.
  - exact H.
  - rewrite map_app. simpl.
    apply NoDup_incl_NoDup with (l := u :: map row_url (rows d)).
    + constructor; [|exact H].
      intros Hin. apply url_stored_In in Hin. congruence.
    + rewrite length_app. simpl. lia.
    + intros x [Hx|Hx]; apply in_or_app.
      * right. left. exact Hx.
      * left. exact Hx.
Qed.

(** What the loop of [save_articles] does to the database. *)
Definition store_all (sa : string) (articles : list article) (d : database)
  : database :=
  fold_left
    (fun d a => insert_or_ignore (title a) (url a) (date_published a) (excerpt a) sa d)
    articles d.

Lemma store_all_grows (sa : string) (articles : list article) (d : database) :
  grows d (store_all sa articles d).
Proof.
  revert d. induction articles as [|a rest IH]; intros d; simpl.
  - apply grows_refl.
  - eapply grows_trans; [apply insert_or_ignore_grows | apply IH].
Qed.

Lemma store_all_NoDup (sa : string) (articles : list article) (d : database) :
  NoDup (stored_urls d) -> NoDup (stored_urls (store_all sa articles d)).
Proof.
  revert d. induction articles as [|a rest IH]; intros d H; simpl.
  - exact H.
  - apply IH, insert_or_ignore_NoDup, H.
Qed.

Lemma store_all_stores (sa : string) (articles : list article) (d : database)
    (a : article) :
  In a articles -> url_stored (url a) (rows (store_all sa articles d)) = true.
Proof.
  revert d. induction articles as [|a' rest IH]; intros d; simpl.
  - intros [].
  - intros [H|H].
    + subst a'. eapply grows_stored; [apply store_all_grows|].
      apply insert_or_ignore_stores.
    + apply IH, H.
Qed.

Lemma store_all_known (sa : string) (articles : list article) (d : database) :
  (forall a, In a articles -> url_stored (url a) (rows d) = true) ->
  rows (store_all sa articles d) = rows d.
Proof.
  revert d. induction articles as [|a rest IH]; intros d H; simpl.
  - reflexivity.
  - assert (Ha : rows (insert_or_ignore (title a) (url a) (date_published a)
                         (excerpt a) sa d) = rows d).
    { apply insert_or_ignore_stored, H. left. reflexivity. }
    rewrite IH; [exact Ha|].
    intros a' Ha'. rewrite Ha. apply H. right. exact Ha'.
Qed.

Lemma for_each_insert_run (sa : string) (articles : list article) (w : world) :
  for_each articles
    (fun a =>
       cursor_execute_insert (title a) (url a) (date_published a) (excerpt a) sa) w
  = (Ok tt,
     mkWorld (store_all sa articles (db w)) (slept w) (requested w) (clock_reads w)).
Proof.
  revert w. induction articles as [|a rest IH]; intros w; simpl.
  - destruct w. reflexivity.
  - unfold bind, cursor_execute_insert at 1. rewrite IH. reflexivity.
Qed.

Lemma save_articles_run (clock : nat -> string) (articles : list article)
    (w : world) :
  save_articles clock articles w
  = (Ok tt,
     mkWorld (store_all (clock (clock_reads w)) articles (db w))
             (slept w) (requested w) (S (clock_reads w))).
Proof.
  unfold save_articles, bind, utcnow_isoformat.
  rewrite for_each_insert_run. reflexivity.
Qed.

(** ** The Pagination Driver *)

Section DriverFacts.

Variable base_url : string.
Variable urljoin : string -> string -> string.
Variable soup_select : string -> option (list block).
Variable net : network.

(** [fetch_page] returns a value and adds to the logs; neither depends on
    the world it starts from, and the database and the clock are left
    alone. *)
Lemma fetch_page_frame (u : string) :
  exists v sl n,
    (1 <= n <= 3)%nat /\
    forall w, fetch_page net u w = (v, logged sl (repeat u n) w).
Proof.
  destruct (fetch_attempts_frame net 3 u (seq 0 3)) as (v & sl & n & Hle & Hge & H).
  exists v, sl, n. split; [|exact H].
  simpl in Hle. split; [apply Hge; discriminate | exact Hle].
Qed.

(** The database after a run of [save_articles] calls, one per batch, the
    first of which reads the clock for the [n]-th time. *)
Fixpoint store_batches (clock : nat -> string) (batches : list (list article))
    (n : nat) (d : database) : database :=
  match batches with
  | [] => d
  | articles :: rest =>
      store_batches clock rest (S n) (store_all (clock n) articles d)
  end.

(** The world after those calls and some sleeps and requests. *)
Definition after_batches (clock : nat -> string) (batches : list (list article))
    (sl : list Z) (rq : list string) (w : world) : world :=
  mkWorld (store_batches clock batches (clock_reads w) (db w))
          (slept w ++ sl) (requested w ++ rq)
          (clock_reads w + List.length batches).

Lemma after_batches_nil (clock : nat -> string) (sl : list Z) (rq : list string)
    (w : world) :
  after_batches clock [] sl rq w = logged sl rq w.
Proof. unfold after_batches, logged. simpl. rewrite Nat.add_0_r. reflexivity. Qed.

Lemma store_batches_app (clock : nat -> string) (b1 b2 : list (list article))
    (n : nat) (d : database) :
  store_batches clock (b1 ++ b2) n d
  = store_batches clock b2 (n + List.length b1) (store_batches clock b1 n d).
Proof.
  revert n d. induction b1 as [|a b1 IH]; intros n d; simpl.
  - rewrite Nat.add_0_r. reflexivity.
  - rewrite IH. f_equal. lia.
Qed.

Lemma after_batches_compose (clock : nat -> string) (b1 b2 : list (list article))
    (sl1 sl2 : list Z) (rq1 rq2 : list string) (w : world) :
  after_batches clock b2 sl2 rq2 (after_batches clock b1 sl1 rq1 w)
  = after_batches clock (b1 ++ b2) (sl1 ++ sl2) (rq1 ++ rq2) w.
Proof.
  unfold after_batches. simpl.
  rewrite store_batches_app, length_app, !app_assoc, Nat.add_assoc. reflexivity.
Qed.

(** A page that is fetched, whatever the fetch returns: the pass through
    the loop body stores at most one batch, and which one does not depend
    on the world or on the clock. *)
Lemma scrape_page_frame (page : nat) :
  exists v sl rq batches,
    In (page_url base_url page) rq /\
    forall clock w,
      scrape_page base_url urljoin soup_select clock net page w
      = (v, after_batches clock batches sl rq w).
Proof.
  destruct (fetch_page_frame (page_url base_url page)) as (v & sl & n & Hn & Hf).
  assert (Hin : In (page_url base_url page) (repeat (page_url base_url page) n)).
  { destruct n as [|n]; [lia | left; reflexivity]. }
  destruct v as [html|e].
  - destruct (truthy html) eqn:Hhtml.
    + destruct (parse_articles base_url urljoin soup_select html) as [|a rest] eqn:Hp.
      * exists (Ok tt), (sl ++ [2])%list, (repeat (page_url base_url page) n), [].
        split; [exact Hin|]. intros clock w.
        unfold scrape_page, bind. rewrite Hf, Hhtml, Hp. simpl.
        rewrite after_batches_nil. unfold ret. rewrite sleep_run, logged_logged.
        rewrite app_nil_r. reflexivity.
      * exists (Ok tt), (sl ++ [2])%list, (repeat (page_url base_url page) n),
          [a :: rest].
        split; [exact Hin|]. intros clock w.
        unfold scrape_page, bind. rewrite Hf, Hhtml, Hp. simpl.
        rewrite save_articles_run, sleep_run.
        unfold after_batches, logged. simpl.
        rewrite app_nil_r, <- app_assoc, Nat.add_1_r. reflexivity.
    + exists (Ok tt), sl, (repeat (page_url base_url page) n), [].
      split; [exact Hin|]. intros clock w.
      unfold scrape_page, bind. rewrite Hf, Hhtml. simpl.
      rewrite after_batches_nil. reflexivity.
  - exists (Raise e), sl, (repeat (page_url base_url page) n), [].
    split; [exact Hin|]. intros clock w.
    unfold scrape_page, bind. rewrite Hf, after_batches_nil. reflexivity.
Qed.

(** The same for a run of pages; when the run ends without an exception,
    every page of it was requested. *)
Lemma scrape_pages_frame (pages : list nat) :
  exists v sl rq batches,
    (v = Ok tt -> forall page, In page pages -> In (page_url base_url page) rq) /\
    forall clock w,
      for_each pages (scrape_page base_url urljoin soup_select clock net) w
      = (v, after_batches clock batches sl rq w).
Proof.
  induction pages as [|page rest IH].
  - exists (Ok tt), [], [], []. split; [intros _ page []|]. intros clock w.
    simpl. rewrite after_batches_nil, logged_nil. reflexivity.
  - destruct (scrape_page_frame page) as (v & sl & rq & b & Hin & Hpage).
    destruct IH as (v' & sl' & rq' & b' & Hin' & Hrest).
    destruct v as [[]|e].
    + exists v', (sl ++ sl')%list, (rq ++ rq')%list, (b ++ b')%list. split.
      * intros Hv page' [Hp|Hp]; apply in_or_app.
        -- subst page'. left. exact Hin.
        -- right. apply Hin'; assumption.
      * intros clock w. simpl. unfold bind.
        rewrite Hpage, Hrest, after_batches_compose. reflexivity.
    + exists (Raise e), sl, rq, b. split; [discriminate|]. intros clock w.
      simpl. unfold bind. rewrite Hpage. reflexivity.
Qed.

Lemma store_batches_grows (clock : nat -> string) (batches : list (list article))
    (n : nat) (d : database) :
  grows d (store_batches clock batches n d).
Proof.
  revert n d. induction batches as [|b rest IH]; intros n d; simpl.
  - apply grows_refl.
  - eapply grows_trans; [apply store_all_grows | apply IH].
Qed.

Lemma store_batches_NoDup (clock : nat -> string) (batches : list (list article))
    (n : nat) (d : database) :
  NoDup (stored_urls d) -> NoDup (stored_urls (store_batches clock batches n d)).
Proof.
  revert n d. induction batches as [|b rest IH]; intros n d H; simpl.
  - exact H.
  - apply IH, store_all_NoDup, H.
Qed.

Lemma store_batches_stores (clock : nat -> string) (batches : list (list article))
    (n : nat) (d : database) (b : list article) (a : article) :
  In b batches -> In a b ->
  url_stored (url a) (rows (store_batches clock batches n d)) = true.
Proof.
  revert n d. induction batches as [|b' rest IH]; intros n d; simpl.
  - intros [].
  - intros [Hb|Hb] Ha.
    + subst b'. eapply grows_stored; [apply store_batches_grows|].
      apply store_all_stores, Ha.
    + apply IH; assumption.
Qed.

Lemma store_batches_known (clock : nat -> string) (batches : list (list article))
    (n : nat) (d : database) :
  (forall b a, In b batches -> In a b -> url_stored (url a) (rows d) = true) ->
  rows (store_batches clock batches n d) = rows d.
Proof.
  revert n d. induction batches as [|b rest IH]; intros n d H; simpl.
  - reflexivity.
  - assert (Hb : rows (store_all (clock n) b d) = rows d).
    { apply store_all_known. intros a Ha. apply (H b a); [left; reflexivity | exact Ha]. }
    rewrite IH; [exact Hb|].
    intros b' a Hb' Ha. rewrite Hb. apply (H b' a); [right|]; assumption.
Qed.

End DriverFacts.

Lemma NoDup_map_eq {A B : Type} (f : A -> B) (l : list A) (x y : A) :
  NoDup (map f l) -> In x l -> In y l -> f x = f y -> x = y.
Proof.
  induction l as [|a l IH]; simpl; intros Hnd Hx Hy Hf.
  - destruct Hx.
  - inversion Hnd as [|? ? Hnotin Hnd']; subst.
    destruct Hx as [Hx|Hx], Hy as [Hy|Hy].
    + congruence.
    + subst a. exfalso. apply Hnotin. rewrite Hf. apply in_map, Hy.
    + subst a. exfalso. apply Hnotin. rewrite <- Hf. apply in_map, Hx.
    + apply IH; assumption.
Qed.

(** ** Crawls against one store *)

(** What can differ from one crawl to the next: the site as it answers
    during the crawl, the clock, and [max_pages]. *)
Record crawl : Type := mkCrawl {
  crawl_site : network;
  crawl_clock : nat -> string;
  crawl_max_pages : Z
}.

(** Rows a run has added to the table. *)
Definition inserted_count (before after : world) : Z :=
  Z.of_nat (List.length (rows (db after))) - Z.of_nat (List.length (rows (db before))).

Section Crawls.

Variable base_url : string.
Variable urljoin : string -> string -> string.
Variable soup_select : string -> option (list block).

(** The world a crawl leaves, whether [scrape] returns or raises. *)
Definition run_crawl (c : crawl) (w : world) : world :=
  snd (scrape base_url urljoin soup_select (crawl_clock c) (crawl_site c)
         (crawl_max_pages c) w).

(** Crawls run one after the other against the same database. *)
Definition run_crawls (cs : list crawl) (w : world) : world :=
  fold_left (fun w c => run_crawl c w) cs w.

(** What a crawl stores is fixed by the site and [max_pages]. *)
Lemma run_crawl_frame (site : network) (max_pages : Z) :
  exists sl rq batches, forall c w,
    crawl_site c = site -> crawl_max_pages c = max_pages ->
    run_crawl c w = after_batches (crawl_clock c) batches sl rq w.
Proof.
  destruct (scrape_pages_frame base_url urljoin soup_select site
              (page_range max_pages)) as (v & sl & rq & b & _ & H).
  exists sl, rq, b. intros c w Hsite Hmax.
  unfold run_crawl, scrape. rewrite Hsite, Hmax, H. reflexivity.
Qed.

Lemma run_crawl_grows (c : crawl) (w : world) :
  grows (db w) (db (run_crawl c w)).
Proof.
  destruct (run_crawl_frame (crawl_site c) (crawl_max_pages c))
    as (sl & rq & b & H).
  rewrite (H c w eq_refl eq_refl). simpl. apply store_batches_grows.
Qed.

Lemma run_crawl_NoDup (c : crawl) (w : world) :
  NoDup (stored_urls (db w)) -> NoDup (stored_urls (db (run_crawl c w))).
Proof.
  destruct (run_crawl_frame (crawl_site c) (crawl_max_pages c))
    as (sl & rq & b & H).
  rewrite (H c w eq_refl eq_refl). simpl. apply store_batches_NoDup.
Qed.

Lemma run_crawls_grows (cs : list crawl) (w : world) :
  grows (db w) (db (run_crawls cs w)).
Proof.
  revert w. induction cs as [|c cs IH]; intros w; simpl.
  - apply grows_refl.
  - eapply grows_trans; [apply run_crawl_grows | apply IH].
Qed.

Lemma run_crawls_NoDup (cs : list crawl) (w : world) :
  NoDup (stored_urls (db w)) -> NoDup (stored_urls (db (run_crawls cs w))).
Proof.
  revert w. induction cs as [|c cs IH]; intros w H; simpl.
  - exact H.
  - apply IH, run_crawl_NoDup, H.
Qed.

(** C1.  Whatever crawls are run against a table whose urls are distinct,
    the urls of the table stay distinct: each url is inserted at most
    once.  And once a crawl has run, a later crawl over the same pages (the
    same site answering the same way, the same [max_pages], any clock)
    leaves the rows of the table as they are: it inserts 0 rows. *)
Theorem crawls_insert_each_url_once (w : world) :
  NoDup (stored_urls (db w)) ->
  (forall cs, NoDup (stored_urls (db (run_crawls cs w))))
  /\ (forall before c between again,
        crawl_site again = crawl_site c ->
        crawl_max_pages again = crawl_max_pages c ->
        let w1 := run_crawls (before ++ c :: between) w in
        let w2 := run_crawl again w1 in
        rows (db w2) = rows (db w1) /\ inserted_count w1 w2 = 0).
Proof.
  intros Hnd. split.
  - intros cs. apply run_crawls_NoDup, Hnd.
  - intros before c between again Hsite Hmax w1 w2.
    assert (Hrows : rows (db w2) = rows (db w1)).
    { subst w2 w1.
      replace (run_crawls (before ++ c :: between) w)
        with (run_crawls between (run_crawl c (run_crawls before w)))
        by (unfold run_crawls; rewrite fold_left_app; reflexivity).
      set (w0 := run_crawls before w).
      destruct (run_crawl_frame (crawl_site c) (crawl_max_pages c))
        as (sl & rq & b & H).
      rewrite (H again _ Hsite Hmax). simpl.
      apply store_batches_known. intros arts a Harts Ha.
      eapply grows_stored; [apply run_crawls_grows|].
      rewrite (H c w0 eq_refl eq_refl). simpl.
      apply store_batches_stores with (b := arts); assumption. }
    split; [exact Hrows|].
    unfold inserted_count. rewrite Hrows. lia.
Qed.

(** C8.  [INSERT OR IGNORE] of a record whose url is in the table leaves
    the rows as they are; [save_articles] returns normally and only
    appends rows, none for a url the table had; and after a whole crawl
    the row found under a url the table had is the row that was there,
    [scraped_at] and every other field included. *)
Theorem existing_rows_untouched :
  (forall t u dp ex sa d,
      url_stored u (rows d) = true ->
      rows (insert_or_ignore t u dp ex sa d) = rows d)
  /\ (forall clock articles w,
        fst (save_articles clock articles w) = Ok tt /\
        grows (db w) (db (snd (save_articles clock articles w))))
  /\ (forall c w r r',
        NoDup (stored_urls (db w)) ->
        In r (rows (db w)) ->
        In r' (rows (db (run_crawl c w))) ->
        row_url r' = row_url r ->
        r' = r).
Proof.
  split; [|split].
  - intros t u dp ex sa d. apply insert_or_ignore_stored.
  - intros clock articles w. rewrite save_articles_run. simpl.
    split; [reflexivity | apply store_all_grows].
  - intros c w r r' Hnd Hr Hr' Hurl.
    destruct (run_crawl_grows c w) as (added & Hrows & Hfresh).
    rewrite Hrows in Hr'. apply in_app_or in Hr' as [Hr'|Hr'].
    + apply (NoDup_map_eq row_url (rows (db w))); assumption.
    + specialize (Hfresh r' Hr'). rewrite Hurl in Hfresh.
      assert (Hin : url_stored (row_url r) (rows (db w)) = true).
      { apply url_stored_In, in_map, Hr. }
      congruence.
Qed.

End Crawls.

Section DriverClaims.

Variable base_url : string.
Variable urljoin : string -> string -> string.
Variable soup_select : string -> option (list block).
Variable clock : nat -> string.
Variable net : network.

(** A crawl that ends without an exception has requested every page of
    [range(1, max_pages + 1)]. *)
Lemma scrape_requests_every_page (max_pages : Z) (w : world) (page : nat) :
  fst (scrape base_url urljoin soup_select clock net max_pages w) = Ok tt ->
  In page (page_range max_pages) ->
  In (page_url base_url page)
     (requested (snd (scrape base_url urljoin soup_select clock net max_pages w))).
Proof.
  unfold scrape.
  destruct (scrape_pages_frame base_url urljoin soup_select net
              (page_range max_pages)) as (v & sl & rq & b & Hin & H).
  rewrite H. simpl. intros Hv Hpage. apply in_or_app. right.
  apply Hin; assumption.
Qed.

Lemma fetch_page_keeps_db (u : string) (w w1 : world) (v : result string) :
  fetch_page net u w = (v, w1) -> db w1 = db w /\ clock_reads w1 = clock_reads w.
Proof.
  destruct (fetch_page_frame net u) as (v' & sl & n & _ & H).
  rewrite H. intros E. inversion E. split; reflexivity.
Qed.

(** What the loop body stores for a page whose fetch returned [html]. *)
Definition page_batches (html : string) : list (list article) :=
  if truthy html then
    match parse_articles base_url urljoin soup_select html with
    | [] => []
    | articles => [articles]
    end
  else [].

(** The pass through the loop body for a page whose fetch returns [html]
    (in one world, and so in every world). *)
Lemma scrape_page_of_html (page : nat) (html : string) (w0 : world) :
  fst (fetch_page net (page_url base_url page) w0) = Ok html ->
  exists sl rq, forall w,
    scrape_page base_url urljoin soup_select clock net page w
    = (Ok tt, after_batches clock (page_batches html) sl rq w).
Proof.
  destruct (fetch_page_frame net (page_url base_url page)) as (v & sl & n & _ & Hf).
  rewrite Hf. simpl. intros Hv. subst v. unfold page_batches.
  destruct (truthy html) eqn:Hhtml.
  - destruct (parse_articles base_url urljoin soup_select html) as [|a rest] eqn:Hp.
    + exists (sl ++ [2])%list, (repeat (page_url base_url page) n). intros w.
      unfold scrape_page, bind. rewrite Hf, Hhtml, Hp. simpl.
      rewrite after_batches_nil. unfold ret. rewrite sleep_run, logged_logged.
      rewrite app_nil_r. reflexivity.
    + exists (sl ++ [2])%list, (repeat (page_url base_url page) n). intros w.
      unfold scrape_page, bind. rewrite Hf, Hhtml, Hp. simpl.
      rewrite save_articles_run, sleep_run.
      unfold after_batches, logged. simpl.
      rewrite app_nil_r, <- app_assoc, Nat.add_1_r. reflexivity.
  - exists sl, (repeat (page_url base_url page) n). intros w.
    unfold scrape_page, bind. rewrite Hf, Hhtml. simpl.
    rewrite after_batches_nil. reflexivity.
Qed.

(** C2, amended.  A page whose fetch returns the empty string is skipped:
    it is not parsed, the database is as before the fetch, no throttle
    sleep is taken, and the loop goes on with the pages that follow.  A
    crawl that ends without an exception has requested every page up to
    [max_pages]. *)
Theorem failed_page_is_skipped :
  (forall page rest w w1,
      fetch_page net (page_url base_url page) w = (Ok "", w1) ->
      db w1 = db w /\
      for_each (page :: rest) (scrape_page base_url urljoin soup_select clock net) w
      = for_each rest (scrape_page base_url urljoin soup_select clock net) w1)
  /\ (forall max_pages w page,
        fst (scrape base_url urljoin soup_select clock net max_pages w) = Ok tt ->
        In page (page_range max_pages) ->
        In (page_url base_url page)
           (requested
              (snd (scrape base_url urljoin soup_select clock net max_pages w)))).
Proof.
  split.
  - intros page rest w w1 Hf. split.
    + apply (fetch_page_keeps_db _ _ _ _ Hf).
    + simpl. unfold bind, scrape_page at 1, bind. rewrite Hf. reflexivity.
  - intros max_pages w page. apply scrape_requests_every_page.
Qed.

(** C3, amended.  A page that is fetched and yields zero records stores
    nothing; the loop takes its 2-second sleep and goes on with the pages
    that follow.  A crawl that ends without an exception has requested
    every page up to [max_pages], empty pages before them or not.  With
    records on pages 1 and 2 and none on page 3, the crawl for
    [max_pages = 5] stores the records of pages 1 and 2 and then goes
    through pages 4 and 5 as it would through any page. *)
Theorem empty_page_is_passed :
  (forall page rest html w w1,
      fetch_page net (page_url base_url page) w = (Ok html, w1) ->
      html <> "" ->
      parse_articles base_url urljoin soup_select html = [] ->
      db w1 = db w /\
      for_each (page :: rest) (scrape_page base_url urljoin soup_select clock net) w
      = for_each rest (scrape_page base_url urljoin soup_select clock net)
          (logged [2] [] w1))
  /\ (forall max_pages w page,
        fst (scrape base_url urljoin soup_select clock net max_pages w) = Ok tt ->
        In page (page_range max_pages) ->
        In (page_url base_url page)
           (requested
              (snd (scrape base_url urljoin soup_select clock net max_pages w))))
  /\ (forall w wa wb wc html1 html2 html3,
        fst (fetch_page net (page_url base_url 1) wa) = Ok html1 ->
        fst (fetch_page net (page_url base_url 2) wb) = Ok html2 ->
        fst (fetch_page net (page_url base_url 3) wc) = Ok html3 ->
        html1 <> "" -> html2 <> "" -> html3 <> "" ->
        parse_articles base_url urljoin soup_select html1 <> [] ->
        parse_articles base_url urljoin soup_select html2 <> [] ->
        parse_articles base_url urljoin soup_select html3 = [] ->
        exists w3,
          for_each [1; 2; 3]%nat
            (scrape_page base_url urljoin soup_select clock net) w = (Ok tt, w3)
          /\ db w3
             = store_all (clock (S (clock_reads w)))
                 (parse_articles base_url urljoin soup_select html2)
                 (store_all (clock (clock_reads w))
                    (parse_articles base_url urljoin soup_select html1) (db w))
          /\ scrape base_url urljoin soup_select clock net 5 w
             = for_each [4; 5]%nat
                 (scrape_page base_url urljoin soup_select clock net) w3).
Proof.
  split; [|split].
  - intros page rest html w w1 Hf Hhtml Hp. split.
    + apply (fetch_page_keeps_db _ _ _ _ Hf).
    + simpl. unfold bind, scrape_page at 1, bind. rewrite Hf.
      destruct html as [|c html]; [contradiction|].
      cbn [negb truthy]. rewrite Hp. cbn [truthy_list].
      unfold ret. rewrite sleep_run. reflexivity.
  - intros max_pages w page. apply scrape_requests_every_page.
  - intros w wa wb wc html1 html2 html3 Hf1 Hf2 Hf3 Hn1 Hn2 Hn3 Hp1 Hp2 Hp3.
    destruct (scrape_page_of_html 1 html1 wa Hf1) as (sl1 & rq1 & H1).
    destruct (scrape_page_of_html 2 html2 wb Hf2) as (sl2 & rq2 & H2).
    destruct (scrape_page_of_html 3 html3 wc Hf3) as (sl3 & rq3 & H3).
    assert (Hb1 : page_batches html1
                  = [parse_articles base_url urljoin soup_select html1]).
    { unfold page_batches. destruct html1; [contradiction|]. simpl.
      destruct (parse_articles base_url urljoin soup_select (String a html1));
        [contradiction | reflexivity]. }
    assert (Hb2 : page_batches html2
                  = [parse_articles base_url urljoin soup_select html2]).
    { unfold page_batches. destruct html2; [contradiction|]. simpl.
      destruct (parse_articles base_url urljoin soup_select (String a html2));
        [contradiction | reflexivity]. }
    assert (Hb3 : page_batches html3 = []).
    { unfold page_batches. rewrite Hp3. destruct (truthy html3); reflexivity. }
    rewrite Hb1 in H1. rewrite Hb2 in H2. rewrite Hb3 in H3.
    assert (Hrun : for_each [1; 2; 3]%nat
                     (scrape_page base_url urljoin soup_select clock net) w
                   = (Ok tt,
                      after_batches clock
                        [parse_articles base_url urljoin soup_select html1;
                         parse_articles base_url urljoin soup_select html2]
                        (sl1 ++ sl2 ++ sl3) (rq1 ++ rq2 ++ rq3) w)).
    { simpl. unfold bind. rewrite H1, H2, H3. unfold ret.
      rewrite !after_batches_compose. simpl. rewrite <- ?app_assoc. reflexivity. }
    eexists. split; [exact Hrun|]. split.
    + reflexivity.
    + unfold scrape. change (page_range 5) with ([1; 2; 3] ++ [4; 5])%nat%list.
      rewrite for_each_app. unfold bind. rewrite Hrun. reflexivity.
Qed.

(** An attempt after which the loop goes on: a network error, or a [429]
    whose [Retry-After] is absent or an integer. *)
Definition retryable (u : string) (k : nat) : Prop :=
  net u k = Throws ClientError \/
  exists r n, net u k = Responds r /\ status r = 429 /\ retry_after_int r = Some n.

Lemma fetch_attempts_retryable (mr : Z) (u : string) (pre rest : list nat) :
  (forall k, In k pre -> retryable u k) ->
  exists sl, forall w,
    fetch_attempts net mr u (pre ++ rest) w
    = fetch_attempts net mr u rest (logged sl (repeat u (List.length pre)) w).
Proof.
  induction pre as [|k pre IH]; intros Hall.
  - exists []. intros w. simpl. rewrite logged_nil. reflexivity.
  - destruct IH as (sl' & Hrest).
    { intros j Hj. apply Hall. right. exact Hj. }
    destruct (Hall k (or_introl eq_refl)) as [Herr|(r & n & Hr & H429 & Hn)].
    + eexists. intros w. simpl. unfold bind.
      rewrite (fetch_attempt_client_error net mr u k w Herr).
      rewrite Hrest, logged_logged. reflexivity.
    + eexists. intros w. simpl. unfold bind.
      rewrite (fetch_attempt_429 net mr u k w r n Hr H429 Hn).
      rewrite Hrest, logged_logged. reflexivity.
Qed.

Lemma attempts_split (k : nat) :
  (k < 3)%nat -> seq 0 3 = (seq 0 k ++ k :: seq (S k) (2 - k))%list.
Proof.
  intros Hk. destruct k as [|[|[|k]]]; [reflexivity | reflexivity | reflexivity | lia].
Qed.

(** The loop of [fetch_page] gets to attempt [k]: every attempt before it
    was retried. *)
Definition reaches (u : string) (k : nat) : Prop :=
  (k < 3)%nat /\ forall j, (j < k)%nat -> retryable u j.

(** An attempt that ends the loop: a [200], another status that is not
    [429], a [429] whose [Retry-After] [int] cannot read, or an exception
    that is not a [ClientError]. *)
Definition ends_loop (u : string) (k : nat) : Prop :=
  (exists r, net u k = Responds r /\ status r = 200)
  \/ (exists r, net u k = Responds r /\ status r <> 200 /\ status r <> 429)
  \/ (exists r, net u k = Responds r /\ status r = 429 /\ retry_after_int r = None)
  \/ (exists e, net u k = Throws e /\ e <> ClientError).

Lemma attempt_cases (u : string) (k : nat) : retryable u k \/ ends_loop u k.
Proof.
  unfold retryable, ends_loop. destruct (net u k) as [r|e] eqn:H.
  - destruct (Z.eq_dec (status r) 200) as [H200|H200].
    + right. left. exists r. split; [reflexivity | exact H200].
    + destruct (Z.eq_dec (status r) 429) as [H429|H429].
      * destruct (retry_after_int r) as [n|] eqn:Hn.
        -- left. right. exists r, n. repeat split; assumption.
        -- right. right. right. left. exists r. repeat split; assumption.
      * right. right. left. exists r. repeat split; assumption.
  - destruct e.
    + left. left. reflexivity.
    + right. right. right. right. exists ValueError. split; [reflexivity | discriminate].
    + right. right. right. right. exists OtherError. split; [reflexivity | discriminate].
Qed.

Lemma reaches_or_exhausts (u : string) :
  (forall j, (j < 3)%nat -> retryable u j)
  \/ exists k, reaches u k /\ ends_loop u k.
Proof.
  destruct (attempt_cases u 0) as [R0|T0].
  - destruct (attempt_cases u 1) as [R1|T1].
    + destruct (attempt_cases u 2) as [R2|T2].
      * left. intros j Hj.
        destruct j as [|[|[|j]]]; [exact R0 | exact R1 | exact R2 | lia].
      * right. exists 2%nat. split; [|exact T2]. split; [lia|].
        intros j Hj. destruct j as [|[|j]]; [exact R0 | exact R1 | lia].
    + right. exists 1%nat. split; [|exact T1]. split; [lia|].
      intros j Hj. destruct j as [|j]; [exact R0 | lia].
  - right. exists 0%nat. split; [|exact T0]. split; [lia|]. intros j Hj. lia.
Qed.

Lemma fetch_attempt_other_exception (mr : Z) (u : string) (k : nat) (w : world)
    (e : exn) :
  net u k = Throws e -> e <> ClientError ->
  fetch_attempt net mr u k w = (Raise e, logged [] [u] w).
Proof.
  intros He Hne. unfold fetch_attempt, try_except, bind.
  rewrite session_get_run, He. destruct e; [contradiction | |]; reflexivity.
Qed.

(** [fetch_page] from the attempt the loop gets to. *)
Lemma fetch_page_from (u : string) (w : world) (k : nat) :
  reaches u k ->
  exists sl,
    fetch_page net u w
    = fetch_attempts net 3 u (k :: seq (S k) (2 - k))
        (logged sl (repeat u k) w).
Proof.
  intros [Hk Hretry].
  destruct (fetch_attempts_retryable 3%Z u (seq 0 k) (k :: seq (S k) (2 - k)))
    as (sl & H).
  { intros j Hj. apply in_seq in Hj. apply Hretry. lia. }
  exists sl. unfold fetch_page, fetch_page_with.
  rewrite (attempts_split k Hk). change (Z.of_nat 3) with 3%Z.
  rewrite H, length_seq. reflexivity.
Qed.

Lemma fetch_page_exhausted (u : string) (w : world) :
  (forall j, (j < 3)%nat -> retryable u j) ->
  fst (fetch_page net u w) = Ok "".
Proof.
  intros Hretry.
  destruct (fetch_attempts_retryable 3%Z u (seq 0 3) []) as (sl & H).
  { intros j Hj. apply in_seq in Hj. apply Hretry. lia. }
  unfold fetch_page, fetch_page_with. rewrite <- (app_nil_r (seq 0 3)).
  change (Z.of_nat 3) with 3%Z. rewrite H. reflexivity.
Qed.

(** What [fetch_page] gives when the loop gets to attempt [k] and that
    attempt ends it. *)
Lemma fetch_page_ended (u : string) (w : world) (k : nat) :
  reaches u k ->
  (forall r, net u k = Responds r -> status r = 200 ->
     fst (fetch_page net u w) = Ok (text r))
  /\ (forall r, net u k = Responds r -> status r <> 200 -> status r <> 429 ->
       fst (fetch_page net u w) = Ok "")
  /\ (forall r, net u k = Responds r -> status r = 429 ->
       retry_after_int r = None ->
       fst (fetch_page net u w) = Raise ValueError)
  /\ (forall e, net u k = Throws e -> e <> ClientError ->
       fst (fetch_page net u w) = Raise e).
Proof.
  intros Hreach. destruct (fetch_page_from u w k Hreach) as (sl & H).
  rewrite H. simpl fetch_attempts. unfold bind.
  split; [|split; [|split]].
  - intros r Hr H200. rewrite (fetch_attempt_200 net 3 u k _ r Hr H200).
    reflexivity.
  - intros r Hr H200 H429.
    rewrite (fetch_attempt_other_status net 3 u k _ r Hr H200 H429). reflexivity.
  - intros r Hr H429 Hn.
    rewrite (fetch_attempt_429_unparseable net 3 u k _ r Hr H429 Hn). reflexivity.
  - intros e He Hne.
    rewrite (fetch_attempt_other_exception 3 u k _ e He Hne). reflexivity.
Qed.

(** C10, amended.  Every call of [fetch_page] ends in one of four ways
    (part 5): it returns the body of the first [200] it gets within its
    three attempts; it returns the empty string at the first status that
    is neither [200] nor [429]; it returns the empty string when all three
    attempts were used up by [ClientError]s, by [429] answers or by both;
    or it raises.  So a call that returns gives the body of a [200] or the
    empty string (parts 1 to 3 say when), and the loop body of [scrape]
    sees only the returned string: whenever it is empty, for any of these
    reasons or because a [200] had an empty body, the page is skipped the
    same way, with no parsing, storing or throttle sleep (part 4).  An
    exception is no returned value: the loop body passes it on (part
    6). *)
Theorem empty_string_is_the_only_failure_signal :
  (forall u w k r,
      (k < 3)%nat -> (forall j, (j < k)%nat -> retryable u j) ->
      net u k = Responds r -> status r = 200 ->
      fst (fetch_page net u w) = Ok (text r))
  /\ (forall u w k r,
        (k < 3)%nat -> (forall j, (j < k)%nat -> retryable u j) ->
        net u k = Responds r -> status r <> 200 -> status r <> 429 ->
        fst (fetch_page net u w) = Ok "")
  /\ (forall u w,
        (forall j, (j < 3)%nat -> retryable u j) ->
        fst (fetch_page net u w) = Ok "")
  /\ (forall page w w1,
        fetch_page net (page_url base_url page) w = (Ok "", w1) ->
        scrape_page base_url urljoin soup_select clock net page w = (Ok tt, w1)
        /\ db w1 = db w /\ clock_reads w1 = clock_reads w /\
        exists sl n, (1 <= n <= 3)%nat /\
          w1 = logged sl (repeat (page_url base_url page) n) w)
  /\ (forall u w,
        (exists k r,
            reaches u k /\ net u k = Responds r /\ status r = 200 /\
            fst (fetch_page net u w) = Ok (text r))
        \/ (exists k r,
              reaches u k /\ net u k = Responds r /\
              status r <> 200 /\ status r <> 429 /\
              fst (fetch_page net u w) = Ok "")
        \/ ((forall j, (j < 3)%nat -> retryable u j) /\
            fst (fetch_page net u w) = Ok "")
        \/ (exists k e,
              reaches u k /\ fst (fetch_page net u w) = Raise e /\
              (net u k = Throws e /\ e <> ClientError
               \/ e = ValueError /\
                  exists r, net u k = Responds r /\ status r = 429 /\
                            retry_after_int r = None)))
  /\ (forall page w w1 e,
        fetch_page net (page_url base_url page) w = (Raise e, w1) ->
        scrape_page base_url urljoin soup_select clock net page w
        = (Raise e, w1)).
Proof.
  split; [|split; [|split; [|split; [|split]]]].
  - intros u w k r Hk Hretry Hr H200.
    apply (proj1 (fetch_page_ended u w k (conj Hk Hretry)) r Hr H200).
  - intros u w k r Hk Hretry Hr H200 H429.
    apply (proj1 (proj2 (fetch_page_ended u w k (conj Hk Hretry))) r Hr H200 H429).
  - intros u w. apply fetch_page_exhausted.
  - intros page w w1 Hf. split; [|split; [|split]].
    + unfold scrape_page, bind. rewrite Hf. reflexivity.
    + apply (fetch_page_keeps_db _ _ _ _ Hf).
    + apply (fetch_page_keeps_db _ _ _ _ Hf).
    + destruct (fetch_page_frame net (page_url base_url page))
        as (v & sl & n & Hn & H).
      rewrite H in Hf. inversion Hf. exists sl, n. split; [exact Hn | reflexivity].
  - intros u w. destruct (reaches_or_exhausts u) as [Hall|(k & Hreach & Hend)].
    + right. right. left. split; [exact Hall | apply fetch_page_exhausted, Hall].
    + destruct (fetch_page_ended u w k Hreach) as (E200 & Eother & Eint & Eexn).
      destruct Hend as [(r & Hr & H200)|[(r & Hr & H200 & H429)|
                        [(r & Hr & H429 & Hn)|(e & He & Hne)]]].
      * left. exists k, r. repeat split; try assumption; try apply Hreach.
        apply (E200 r Hr H200).
      * right. left. exists k, r.
        split; [exact Hreach|]. split; [exact Hr|]. split; [exact H200|].
        split; [exact H429 | apply (Eother r Hr H200 H429)].
      * right. right. right. exists k, ValueError.
        split; [exact Hreach|]. split; [apply (Eint r Hr H429 Hn)|].
        right. split; [reflexivity|]. exists r. repeat split; assumption.
      * right. right. right. exists k, e.
        split; [exact Hreach|]. split; [apply (Eexn e He Hne)|].
        left. split; assumption.
  - intros page w w1 e Hf. unfold scrape_page, bind. rewrite Hf. reflexivity.
Qed.

End DriverClaims.

(** ** A rate-limit wait at any attempt *)






(** * A small site, and the properties on it *)

Module Demo.

Definition base : string := default_base_url.

Definition story_a : block :=
  mkBlock (Some ("Startup A raises a seed round",
                 Some "https://techcrunch.com/2024/05/01/a/"))
          (Some (Some "2024-05-01T09:00:00")) (Some "A raises.").

Definition story_b : block :=
  mkBlock (Some ("Startup B ships", Some "/2024/05/02/b/"))
          (Some (Some "2024-05-02T09:00:00")) (Some "B ships.").

(** A block whose link is relative to the page, without date or excerpt. *)
Definition story_c : block :=
  mkBlock (Some ("Startup C hires", Some "story-c/")) None None.

Definition story_d : block :=
  mkBlock (Some ("Startup D pivots", Some "/2024/05/04/d/"))
          (Some (Some "2024-05-04T09:00:00")) None.

(** A block whose link has no text: the title is missing. *)
Definition untitled : block :=
  mkBlock (Some ("", Some "/2024/05/03/x/"))
          (Some (Some "2024-05-03T09:00:00")) (Some "No title.").

(** BeautifulSoup on the five page bodies the site serves. *)
Definition soup (html : string) : option (list block) :=
  if String.eqb html "<html>A</html>" then Some [story_a]
  else if String.eqb html "<html>B</html>" then Some [story_b]
  else if String.eqb html "<html>C</html>" then Some [story_c]
  else if String.eqb html "<html>five</html>"
       then Some [story_a; story_b; untitled; story_c; story_d]
  else Some [].

Definition clock (n : nat) : string := "2024-05-10T12:00:0" ++ str_of_nat n.

(** A site that answers [200] with the body listed for the url, at every
    attempt, and [404] for any other url. *)
Fixpoint serve (pages : list (string * string)) (u : string) (k : nat)
  : get_outcome :=
  match pages with
  | [] => Responds (mkResponse 404 None "Not Found")
  | (u', body) :: rest =>
      if String.eqb u u' then Responds (mkResponse 200 None body)
      else serve rest u k
  end.

(** Page 1 is gone ([404]); page 2 lists story B. *)
Definition first_page_gone : network :=
  serve [(base ++ "page/2/", "<html>B</html>")].

(** Page 1 cannot be reached (every request ends in [ClientError]); page 2
    lists story B. *)
Definition first_page_unreachable (u : string) (k : nat) : get_outcome :=
  if String.eqb u base then Throws ClientError
  else serve [(base ++ "page/2/", "<html>B</html>")] u k.

(** Pages 1 and 2 have a story each, page 3 has none, page 4 has one,
    page 5 has none. *)
Definition gap_at_three : network :=
  serve [(base, "<html>A</html>");
         (base ++ "page/2/", "<html>B</html>");
         (base ++ "page/3/", "<html>none</html>");
         (base ++ "page/4/", "<html>C</html>");
         (base ++ "page/5/", "<html>none</html>")].

(** Page 1 lists story A; page 2 lists story C, whose link is relative. *)
Definition two_pages : network :=
  serve [(base, "<html>A</html>"); (base ++ "page/2/", "<html>C</html>")].

(** The page with five blocks. *)
Definition five_blocks : network := serve [(base, "<html>five</html>")].

(** [scrape] on this site. *)
Definition crawl_of (site : network) (max_pages : Z) : M unit :=
  scrape base Url.urljoin soup clock site max_pages.

(** C2, as stated, fails: the fetch of page 1 ends in failure (a [404], or
    three network errors in a row), and the crawl still requests page 2
    and stores its record. *)
Lemma crawl_goes_on_after_failed_page :
  (fetch_page first_page_gone (page_url base 1) fresh_world
   = (Ok "", logged [] [base] fresh_world)
   /\ requested (snd (crawl_of first_page_gone 2 fresh_world))
      = [base; base ++ "page/2/"]
   /\ stored_urls (db (snd (crawl_of first_page_gone 2 fresh_world)))
      = ["https://techcrunch.com/2024/05/02/b/"])
  /\
  (fetch_page first_page_unreachable (page_url base 1) fresh_world
   = (Ok "", logged [1; 2] [base; base; base] fresh_world)
   /\ requested (snd (crawl_of first_page_unreachable 2 fresh_world))
      = [base; base; base; base ++ "page/2/"]
   /\ stored_urls (db (snd (crawl_of first_page_unreachable 2 fresh_world)))
      = ["https://techcrunch.com/2024/05/02/b/"]).
Proof. repeat split; vm_compute; reflexivity. Qed.

(** C3, as stated, fails: page 3 yields zero records, and the crawl with
    [max_pages = 5] still requests pages 4 and 5 and stores the record of
    page 4. *)
Lemma crawl_goes_on_after_empty_page :
  parse_articles base Url.urljoin soup "<html>none</html>" = []
  /\ requested (snd (crawl_of gap_at_three 5 fresh_world))
     = [base; base ++ "page/2/"; base ++ "page/3/"; base ++ "page/4/";
        base ++ "page/5/"]
  /\ stored_urls (db (snd (crawl_of gap_at_three 5 fresh_world)))
     = ["https://techcrunch.com/2024/05/01/a/";
        "https://techcrunch.com/2024/05/02/b/";
        "https://techcrunch.com/category/startups/story-c/"].
Proof. repeat split; vm_compute; reflexivity. Qed.

(** C9, as stated, fails: story C is listed on page 2 with the relative
    link [story-c/]; its record has the link resolved against [base_url],
    not against the url of page 2. *)
Lemma relative_link_not_resolved_against_page_url :
  fst (fetch_page two_pages (page_url base 2) fresh_world) = Ok "<html>C</html>"
  /\ map url (parse_articles base Url.urljoin soup "<html>C</html>")
     = ["https://techcrunch.com/category/startups/story-c/"]
  /\ Url.urljoin (page_url base 2) "story-c/"
     = "https://techcrunch.com/category/startups/page/2/story-c/"
  /\ map url (parse_articles base Url.urljoin soup "<html>C</html>")
     <> [Url.urljoin (page_url base 2) "story-c/"].
Proof.
  split; [|split; [|split]]; try (vm_compute; reflexivity).
  vm_compute. discriminate.
Qed.

End Demo.

(** * Inputs on which the stated properties fail *)

Module Edge.

Import Demo.

(** A block with a title and a link whose [time] element has no
    [datetime] attribute. *)
Definition story_e : block :=
  mkBlock (Some ("Startup E launches", Some "/2024/05/05/e/"))
          (Some None) (Some "E launches.").

(** A page of five blocks: the third has no title, the fourth is
    [story_e]. *)
Definition soup_e (html : string) : option (list block) :=
  if String.eqb html "<html>five</html>"
  then Some [story_a; story_b; untitled; story_e; story_d]
  else Some [].

(** A block that has the two required fields, title and url. *)
Definition has_title_and_url (base_url : string)
    (urljoin : string -> string -> string) (b : block) : bool :=
  truthy (block_title b) && truthy (block_url base_url urljoin b).

(** The reading of "five blocks, the third without a title, give exactly
    four records" with a block taken as well-formed when it has a title
    and a url. *)
Definition four_of_five_as_stated (base_url : string)
    (urljoin : string -> string -> string)
    (soup_select : string -> option (list block)) : Prop :=
  forall html b1 b2 b3 b4 b5,
    soup_select html = Some [b1; b2; b3; b4; b5] ->
    has_title_and_url base_url urljoin b1 = true ->
    has_title_and_url base_url urljoin b2 = true ->
    truthy (block_title b3) = false ->
    has_title_and_url base_url urljoin b4 = true ->
    has_title_and_url base_url urljoin b5 = true ->
    List.length (parse_articles base_url urljoin soup_select html) = 4%nat.

(** C7, as stated, fails: of five blocks, the third untitled and the
    fourth with title, url and a [time] element that lacks [datetime],
    [parse_articles] returns three records: [date_elem['datetime']] raises
    [KeyError] and the inner [except Exception] drops the fourth block
    too. *)
Lemma bare_time_block_is_dropped :
  ~ four_of_five_as_stated base Url.urljoin soup_e.
Proof.
  intros H.
  specialize (H "<html>five</html>" story_a story_b untitled story_e story_d
                eq_refl eq_refl eq_refl eq_refl eq_refl eq_refl).
  vm_compute in H. discriminate H.
Qed.

(** The reading of "the empty string in every failure case": a fetch
    that gets no [200] within its three attempts returns the empty
    string. *)
Definition every_failure_returns_empty (net : network) : Prop :=
  forall u w,
    (forall k r, (k < 3)%nat -> net u k = Responds r -> status r <> 200) ->
    fst (fetch_page net u w) = Ok "".

(** A site no request to which is ever answered: each runs into the
    client's total timeout. *)
Definition never_answers (_ : string) (_ : nat) : get_outcome :=
  Throws OtherError.

(** C10, as stated, fails: repeated [429] answers whose [Retry-After] is
    an HTTP-date, and requests that time out, are failures after which
    [fetch_page] does not return the empty string but raises; [scrape]
    does not catch the exception, so the empty string is not the only
    failure signal that reaches it. *)
Lemma failure_can_raise :
  ~ every_failure_returns_empty limited_until_date
  /\ ~ every_failure_returns_empty never_answers
  /\ fst (crawl_of limited_until_date 2 fresh_world) = Raise ValueError
  /\ fst (crawl_of never_answers 2 fresh_world) = Raise OtherError.
Proof.
  split; [|split; [|split]].
  - intros H. specialize (H base fresh_world).
    assert (Hno : forall k r, (k < 3)%nat ->
                    limited_until_date base k = Responds r -> status r <> 200).
    { intros k r _ Hr. inversion Hr. discriminate. }
    specialize (H Hno). vm_compute in H. discriminate H.
  - intros H. specialize (H base fresh_world).
    assert (Hno : forall k r, (k < 3)%nat ->
                    never_answers base k = Responds r -> status r <> 200).
    { intros k r _ Hr. discriminate Hr. }
    specialize (H Hno). vm_compute in H. discriminate H.
  - vm_compute. reflexivity.
  - vm_compute. reflexivity.
Qed.

End Edge.

(** * The properties at concrete inputs *)

Module Witness.

Import Demo.

(** A first crawl of five pages, and the same crawl run again later. *)
Definition first_crawl : crawl := mkCrawl gap_at_three clock 5.
Definition second_crawl : crawl :=
  mkCrawl gap_at_three (fun _ => "2024-06-01T08:00:00") 5.

(** A table that already holds story A, stored on an earlier day. *)
Definition row_a : row :=
  mkRow 1 "Startup A raises a seed round" "https://techcrunch.com/2024/05/01/a/"
        "2024-05-01T09:00:00" "A raises." "2024-05-02T07:00:00".
Definition holds_a : world := mkWorld (mkDatabase [row_a] 1) [] [] 0.

Lemma crawls_insert_each_url_once_witness :
  NoDup (stored_urls
           (db (run_crawls base Url.urljoin soup [first_crawl; second_crawl]
                  fresh_world)))
  /\ rows (db (run_crawl base Url.urljoin soup second_crawl
                 (run_crawls base Url.urljoin soup [first_crawl] fresh_world)))
     = rows (db (run_crawls base Url.urljoin soup [first_crawl] fresh_world))
  /\ inserted_count
       (run_crawls base Url.urljoin soup [first_crawl] fresh_world)
       (run_crawl base Url.urljoin soup second_crawl
          (run_crawls base Url.urljoin soup [first_crawl] fresh_world))
     = 0.
Proof.
  assert (H0 : NoDup (stored_urls (db fresh_world))) by (simpl; constructor).
  destruct (crawls_insert_each_url_once base Url.urljoin soup fresh_world H0)
    as [H1 H2].
  split.
  - apply H1.
  - apply (H2 [] first_crawl [] second_crawl); reflexivity.
Defined.

Lemma existing_rows_untouched_witness :
  rows (insert_or_ignore "Another title" "https://techcrunch.com/2024/05/01/a/"
          "" "" "2024-05-10T12:00:00" (db holds_a))
  = rows (db holds_a)
  /\ grows (db holds_a)
       (db (snd (save_articles clock
                   (parse_articles base Url.urljoin soup "<html>five</html>")
                   holds_a)))
  /\ In row_a (rows (db (run_crawl base Url.urljoin soup first_crawl holds_a)))
  /\ (forall r',
        In r' (rows (db (run_crawl base Url.urljoin soup first_crawl holds_a))) ->
        row_url r' = row_url row_a ->
        r' = row_a).
Proof.
  destruct (existing_rows_untouched base Url.urljoin soup) as (H1 & H2 & H3).
  split; [|split; [|split]].
  - apply H1. reflexivity.
  - apply (H2 clock _ holds_a).
  - vm_compute. left. reflexivity.
  - intros r' Hin Hurl. apply (H3 first_crawl holds_a row_a r').
    + simpl. constructor; [intros [] | constructor].
    + left. reflexivity.
    + exact Hin.
    + exact Hurl.
Defined.

Lemma failed_page_is_skipped_witness :
  (db (logged [] [base] fresh_world) = db fresh_world
   /\ for_each [1%nat; 2%nat]
        (scrape_page base Url.urljoin soup clock first_page_gone) fresh_world
      = for_each [2%nat]
          (scrape_page base Url.urljoin soup clock first_page_gone)
          (logged [] [base] fresh_world))
  /\ In (page_url base 2) (requested (snd (crawl_of first_page_gone 2 fresh_world))).
Proof.
  destruct (failed_page_is_skipped base Url.urljoin soup clock first_page_gone)
    as [H1 H2].
  split.
  - apply (H1 1%nat [2%nat] fresh_world (logged [] [base] fresh_world)).
    vm_compute. reflexivity.
  - apply (H2 2 fresh_world 2%nat).
    + vm_compute. reflexivity.
    + simpl. right. left. reflexivity.
Defined.

Lemma empty_page_is_passed_witness :
  (db (logged [] [base ++ "page/3/"] holds_a) = db holds_a
   /\ for_each [3%nat; 4%nat; 5%nat]
        (scrape_page base Url.urljoin soup clock gap_at_three) holds_a
      = for_each [4%nat; 5%nat]
          (scrape_page base Url.urljoin soup clock gap_at_three)
          (logged [2] [] (logged [] [base ++ "page/3/"] holds_a)))
  /\ In (page_url base 5) (requested (snd (crawl_of gap_at_three 5 fresh_world)))
  /\ (exists w3,
        for_each [1; 2; 3]%nat
          (scrape_page base Url.urljoin soup clock gap_at_three) fresh_world
        = (Ok tt, w3)
        /\ db w3
           = store_all (clock 1)
               (parse_articles base Url.urljoin soup "<html>B</html>")
               (store_all (clock 0)
                  (parse_articles base Url.urljoin soup "<html>A</html>")
                  (db fresh_world))
        /\ crawl_of gap_at_three 5 fresh_world
           = for_each [4; 5]%nat
               (scrape_page base Url.urljoin soup clock gap_at_three) w3).
Proof.
  destruct (empty_page_is_passed base Url.urljoin soup clock gap_at_three)
    as (H1 & H2 & H3).
  split; [|split].
  - apply (H1 3%nat [4%nat; 5%nat] "<html>none</html>" holds_a
             (logged [] [base ++ "page/3/"] holds_a)).
    + vm_compute. reflexivity.
    + discriminate.
    + vm_compute. reflexivity.
  - apply (H2 5 fresh_world 5%nat).
    + vm_compute. reflexivity.
    + simpl. do 4 right. left. reflexivity.
  - apply (H3 fresh_world fresh_world fresh_world fresh_world
             "<html>A</html>" "<html>B</html>" "<html>none</html>");
      try (vm_compute; reflexivity); try discriminate; vm_compute; discriminate.
Defined.

Lemma parse_articles_skips_malformed_witness :
  parse_blocks base Url.urljoin ([story_a] ++ untitled :: [story_b])
  = (parse_blocks base Url.urljoin [story_a]
     ++ parse_blocks base Url.urljoin [story_b])%list
  /\ (title (record_of base Url.urljoin story_a) <> ""
      /\ url (record_of base Url.urljoin story_a) <> "")
  /\ parse_articles base Url.urljoin soup "<html>five</html>"
     = [record_of base Url.urljoin story_a; record_of base Url.urljoin story_b;
        record_of base Url.urljoin story_c; record_of base Url.urljoin story_d].
Proof.
  destruct (parse_articles_skips_malformed base Url.urljoin soup)
    as (H1 & H2 & H3).
  split; [|split].
  - apply H1. left. reflexivity.
  - apply (H2 "<html>A</html>"). left. reflexivity.
  - apply (H3 "<html>five</html>" story_a story_b untitled story_c story_d);
      reflexivity.
Defined.

Lemma urls_resolved_against_base_url_witness :
  exists b txt href,
    In b [story_c] /\ title_elem b = Some (txt, Some href) /\ href <> "" /\
    url (record_of base Url.urljoin story_c) = Url.urljoin base href.
Proof.
  apply (urls_resolved_against_base_url base Url.urljoin soup "<html>C</html>").
  - reflexivity.
  - left. reflexivity.
Defined.

Lemma empty_string_is_the_only_failure_signal_witness :
  fst (fetch_page fails_twice base fresh_world) = Ok "<html>ok</html>"
  /\ fst (fetch_page first_page_gone base fresh_world) = Ok ""
  /\ fst (fetch_page limited_no_header base fresh_world) = Ok ""
  /\ scrape_page base Url.urljoin soup clock first_page_gone 1 fresh_world
     = (Ok tt, logged [] [base] fresh_world)
  /\ scrape_page base Url.urljoin soup clock limited_until_date 1 fresh_world
     = (Raise ValueError, logged [] [base] fresh_world).
Proof.
  split; [|split; [|split; [|split]]].
  - apply (proj1 (empty_string_is_the_only_failure_signal
                    base Url.urljoin soup clock fails_twice)
             base fresh_world 2%nat (mkResponse 200 None "<html>ok</html>")).
    + lia.
    + intros j Hj. left. destruct j as [|[|j]]; [reflexivity | reflexivity | lia].
    + reflexivity.
    + reflexivity.
  - apply (proj1 (proj2 (empty_string_is_the_only_failure_signal
                           base Url.urljoin soup clock first_page_gone))
             base fresh_world 0%nat (mkResponse 404 None "Not Found")).
    + lia.
    + intros j Hj. lia.
    + reflexivity.
    + discriminate.
    + discriminate.
  - apply (proj1 (proj2 (proj2 (empty_string_is_the_only_failure_signal
                                  base Url.urljoin soup clock limited_no_header)))
             base fresh_world).
    intros j _. right. exists (mkResponse 429 None ""), 5.
    repeat split; reflexivity.
  - apply (proj1 (proj2 (proj2 (proj2 (empty_string_is_the_only_failure_signal
                                         base Url.urljoin soup clock
                                         first_page_gone))))
             1%nat fresh_world (logged [] [base] fresh_world)).
    vm_compute. reflexivity.
  - apply (proj2 (proj2 (proj2 (proj2 (proj2
                   (empty_string_is_the_only_failure_signal
                      base Url.urljoin soup clock limited_until_date)))))
             1%nat fresh_world (logged [] [base] fresh_world) ValueError).
    vm_compute. reflexivity.
Defined.

End Witness.

(** * Further properties of the scraper *)

(** ** [fetch_page]: requests, sleeps and exceptions *)

Section FetcherMore.

Variable net : network.

(** X1.  Whatever the site does, a call of [fetch_page] makes at least one
    and at most three requests, all of them for the url it was given, and
    changes nothing but the two logs: the table and the clock are as
    before, also when the call raises. *)
Theorem fetch_page_touches_only_the_logs (u : string) (w : world) :
  exists n sl,
    (1 <= n <= 3)%nat /\
    requested (snd (fetch_page net u w)) = (requested w ++ repeat u n)%list /\
    slept (snd (fetch_page net u w)) = (slept w ++ sl)%list /\
    db (snd (fetch_page net u w)) = db w /\
    clock_reads (snd (fetch_page net u w)) = clock_reads w.
Proof.
  destruct (fetch_page_frame net u) as (v & sl & n & Hn & H).
  exists n, sl. rewrite H. simpl. repeat split; try reflexivity; lia.
Qed.

(** X2.  A first answer that is not a [429] ends the fetch at once: the
    body for a [200], the empty string for any other status, after exactly
    one request and without any sleep.  A [404] or a [500] is never
    retried. *)
Theorem first_answer_ends_fetch (u : string) (w : world) (r : response) :
  net u 0%nat = Responds r -> status r <> 429 ->
  fetch_page net u w
  = (Ok (if status r =? 200 then text r else ""), logged [] [u] w).
Proof.
  intros Hr H429. unfold fetch_page, fetch_page_with. simpl. unfold bind.
  destruct (Z.eqb_spec (status r) 200) as [H200|H200].
  - rewrite (fetch_attempt_200 net _ u 0%nat w r Hr H200). reflexivity.
  - rewrite (fetch_attempt_other_status net _ u 0%nat w r Hr H200 H429).
    reflexivity.
Qed.

(** X3.  A [429] at the third attempt is still waited out: after two
    attempts that were retried, the loop sleeps the [Retry-After] seconds
    of the third answer and then returns the empty string, three requests
    made and none after the wait. *)
Theorem last_rate_limit_is_waited_out (u : string) (w : world) (r : response)
    (n : Z) :
  (forall j, (j < 2)%nat -> retryable net u j) ->
  net u 2%nat = Responds r -> status r = 429 -> retry_after_int r = Some n ->
  exists sl,
    fetch_page net u w = (Ok "", logged (sl ++ [n]) (repeat u 3) w).
Proof.
  intros Hretry Hr H429 Hn.
  destruct (fetch_attempts_retryable net 3%Z u (seq 0 2) [2%nat]) as (sl & H).
  { intros j Hj. apply in_seq in Hj. apply Hretry. lia. }
  exists sl. intros. unfold fetch_page, fetch_page_with.
  change (seq 0 3) with (seq 0 2 ++ [2%nat])%list.
  change (Z.of_nat 3) with 3%Z. rewrite H. simpl. unfold bind.
  rewrite (fetch_attempt_429 net 3 u 2%nat _ r n Hr H429 Hn).
  unfold ret. rewrite logged_logged. reflexivity.
Qed.

(** X4.  An exception of a request that is not an [aiohttp.ClientError]
    is not caught: raised at attempt [k], after attempts that were retried,
    it leaves [fetch_page] after [k + 1] requests, and no attempt
    follows. *)
Theorem other_exception_escapes_fetch (u : string) (w : world) (k : nat)
    (e : exn) :
  (k < 3)%nat -> (forall j, (j < k)%nat -> retryable net u j) ->
  net u k = Throws e -> e <> ClientError ->
  exists sl,
    fetch_page net u w = (Raise e, logged sl (repeat u (S k)) w).
Proof.
  intros Hk Hretry He Hne.
  destruct (fetch_attempts_retryable net 3%Z u (seq 0 k) (k :: seq (S k) (2 - k)))
    as (sl & H).
  { intros j Hj. apply in_seq in Hj. apply Hretry. lia. }
  exists sl. unfold fetch_page, fetch_page_with.
  rewrite (attempts_split k Hk). change (Z.of_nat 3) with 3%Z. rewrite H.
  simpl. unfold bind, fetch_attempt, try_except, bind.
  rewrite session_get_run, He.
  destruct e; [contradiction | |];
    simpl; rewrite logged_logged, app_nil_r, length_seq, repeat_snoc;
    reflexivity.
Qed.

End FetcherMore.

(** ** [parse_articles]: which blocks give a record *)

Section ExtractorMore.

Variable base_url : string.
Variable urljoin : string -> string -> string.
Variable soup_select : string -> option (list block).

Lemma appended_not_well_formed (b : block) :
  well_formed base_url urljoin b = false -> appended base_url urljoin b = [].
Proof.
  unfold well_formed, appended, parse_block, block_date_published.
  destruct (date_elem b) as [[d|]|]; try reflexivity;
    rewrite andb_true_r; intros H; rewrite H; reflexivity.
Qed.

(** X5.  [parse_articles] returns the records of exactly the blocks that
    have a title, a url and no [time] element without [datetime], in the
    order of the page; a block with title and url whose [time] element
    lacks the [datetime] attribute is dropped like a block without title.
    So a page never yields more records than it has blocks, and a page
    that BeautifulSoup cannot read yields none. *)
Theorem parse_articles_keeps_well_formed_blocks (html : string) :
  parse_articles base_url urljoin soup_select html
  = match soup_select html with
    | Some bs =>
        map (record_of base_url urljoin) (filter (well_formed base_url urljoin) bs)
    | None => []
    end
  /\ forall bs,
      soup_select html = Some bs ->
      (List.length (parse_articles base_url urljoin soup_select html)
       <= List.length bs)%nat.
Proof.
  assert (H : forall bs,
             parse_blocks base_url urljoin bs
             = map (record_of base_url urljoin)
                 (filter (well_formed base_url urljoin) bs)).
  { induction bs as [|b bs IH]; [reflexivity|].
    rewrite parse_blocks_cons, IH. simpl.
    destruct (well_formed base_url urljoin b) eqn:Hb.
    - rewrite (appended_well_formed _ _ b Hb). reflexivity.
    - rewrite (appended_not_well_formed b Hb). reflexivity. }
  unfold parse_articles. split.
  - destruct (soup_select html); [apply H | reflexivity].
  - intros bs Hbs. rewrite Hbs, H, length_map. apply filter_length_le.
Qed.

End ExtractorMore.

(** ** Reading the table back: [get_stored_articles] *)

(** The dict [get_stored_articles] builds from a row: keys [title], [url],
    [date_published], [excerpt], [scraped_at]. *)
Record stored_article : Type := mkStored {
  stored_title : string;
  stored_url : string;
  stored_date_published : string;
  stored_excerpt : string;
  stored_scraped_at : string
}.

(** [SELECT title, url, date_published, excerpt, scraped_at FROM articles],
    rows in the order of their [id], turned into dicts. *)
Definition select_articles (d : database) : list stored_article :=
  map (fun r =>
         mkStored (row_title r) (row_url r) (row_date_published r)
                  (row_excerpt r) (row_scraped_at r))
      (rows d).

(** [get_stored_articles], the database file being available. *)
Definition get_stored_articles : M (list stored_article) :=
  fun w => (Ok (select_articles (db w)), w).

(** An article as it reads once stored at time [sa]. *)
Definition stamped (sa : string) (a : article) : stored_article :=
  mkStored (title a) (url a) (date_published a) (excerpt a) sa.

Definition known_url (u : string) (known : list string) : bool :=
  existsb (String.eqb u) known.

(** The articles of a batch that get a row: those whose url is not
    [known], at the first place their url occurs in the batch. *)
Fixpoint first_new (known : list string) (articles : list article)
  : list article :=
  match articles with
  | [] => []
  | a :: rest =>
      if known_url (url a) known then first_new known rest
      else a :: first_new (url a :: known) rest
  end.

Lemma url_stored_known (u : string) (d : database) :
  url_stored u (rows d) = known_url u (stored_urls d).
Proof.
  unfold url_stored, known_url, stored_urls.
  induction (rows d) as [|r rs IH]; simpl; [reflexivity|].
  rewrite IH, (String.eqb_sym (row_url r) u). reflexivity.
Qed.

Lemma first_new_ext (k1 k2 : list string) (articles : list article) :
  (forall u, known_url u k1 = known_url u k2) ->
  first_new k1 articles = first_new k2 articles.
Proof.
  revert k1 k2. induction articles as [|a rest IH]; intros k1 k2 H; simpl.
  - reflexivity.
  - rewrite (H (url a)). destruct (known_url (url a) k2).
    + apply IH, H.
    + f_equal. apply IH. intros u. unfold known_url in *. simpl.
      rewrite (H u). reflexivity.
Qed.

Lemma select_articles_store_all (sa : string) (articles : list article)
    (d : database) :
  select_articles (store_all sa articles d)
  = (select_articles d
     ++ map (stamped sa) (first_new (stored_urls d) articles))%list.
Proof.
  revert d. induction articles as [|a rest IH]; intros d; simpl.
  - rewrite app_nil_r. reflexivity.
  - rewrite IH. rewrite <- url_stored_known.
    unfold insert_or_ignore.
    destruct (url_stored (url a) (rows d)) eqn:Hu.
    + reflexivity.
    + unfold select_articles at 1, stored_urls at 1. simpl.
      rewrite !map_app. simpl. rewrite <- app_assoc. simpl.
      f_equal. f_equal. f_equal.
      apply first_new_ext. intros u. unfold known_url.
      rewrite existsb_app. simpl. rewrite orb_false_r.
      fold (stored_urls d). apply orb_comm.
Qed.

Lemma first_new_all (known : list string) (articles : list article) :
  NoDup (map url articles) ->
  (forall a, In a articles -> known_url (url a) known = false) ->
  first_new known articles = articles.
Proof.
  revert known. induction articles as [|a rest IH]; intros known Hnd Hnew; simpl.
  - reflexivity.
  - rewrite (Hnew a (or_introl eq_refl)). f_equal.
    inversion Hnd as [|? ? Hnotin Hnd']; subst.
    apply IH; [exact Hnd'|].
    intros a' Ha'. pose proof (Hnew a' (or_intror Ha')) as Hk.
    unfold known_url in *. simpl. rewrite Hk.
    destruct (String.eqb_spec (url a') (url a)) as [E|_]; [|reflexivity].
    exfalso. apply Hnotin. rewrite <- E. apply in_map, Ha'.
Qed.

Section StoreMore.

Variable clock : nat -> string.

(** X6.  What [save_articles] adds to the table, as [get_stored_articles]
    reads it back: behind the entries that were there, one entry for each
    url of the batch that the table did not have, in the order of first
    occurrence, with the fields of the first article of the batch that has
    this url and the one time stamp read at the start of the call.  The
    logs are untouched and the clock was read once. *)
Theorem save_articles_appends_first_new (articles : list article) (w : world) :
  let w' := snd (save_articles clock articles w) in
  get_stored_articles w'
  = (Ok (select_articles (db w)
         ++ map (stamped (clock (clock_reads w)))
              (first_new (stored_urls (db w)) articles))%list,
     w')
  /\ slept w' = slept w /\ requested w' = requested w
  /\ clock_reads w' = S (clock_reads w).
Proof.
  simpl. rewrite save_articles_run. unfold get_stored_articles. simpl.
  rewrite select_articles_store_all. repeat split.
Qed.

(** X7.  Save, then read back: a batch of articles with pairwise distinct
    urls, none of them in the table, is returned by [get_stored_articles]
    whole and in order behind the entries that were there, every field as
    it was parsed. *)
Theorem saved_articles_are_read_back (articles : list article) (w : world) :
  NoDup (map url articles) ->
  (forall a, In a articles -> url_stored (url a) (rows (db w)) = false) ->
  fst (get_stored_articles (snd (save_articles clock articles w)))
  = Ok (select_articles (db w)
        ++ map (stamped (clock (clock_reads w))) articles)%list.
Proof.
  intros Hnd Hnew. rewrite save_articles_run. unfold get_stored_articles. simpl.
  rewrite select_articles_store_all, first_new_all; [reflexivity | exact Hnd |].
  intros a Ha. rewrite <- url_stored_known. apply Hnew, Ha.
Qed.

End StoreMore.

(** ** What a crawl requests and what it stores *)

(** The row [save_articles] writes for an article. *)
Definition row_of_article (r : row) (a : article) (sa : string) : Prop :=
  row_title r = title a /\ row_url r = url a /\
  row_date_published r = date_published a /\ row_excerpt r = excerpt a /\
  row_scraped_at r = sa.

Lemma store_all_rows_from (sa : string) (articles : list article)
    (d : database) (r : row) :
  In r (rows (store_all sa articles d)) ->
  In r (rows d) \/ exists a, In a articles /\ row_of_article r a sa.
Proof.
  revert d. induction articles as [|a rest IH]; intros d; simpl.
  - intros H. left. exact H.
  - intros H. apply IH in H as [H|(a' & Ha' & Hr)].
    + unfold insert_or_ignore in H.
      destruct (url_stored (url a) (rows d)); simpl in H.
      * left. exact H.
      * apply in_app_or in H as [H|[H|[]]]; [left; exact H|].
        right. exists a. split; [left; reflexivity|].
        subst r. repeat split.
    + right. exists a'. split; [right; exact Ha' | exact Hr].
Qed.

Lemma store_batches_rows_from (clock : nat -> string)
    (batches : list (list article)) (n : nat) (d : database) (r : row) :
  In r (rows (store_batches clock batches n d)) ->
  In r (rows d) \/
  exists b a k,
    In b batches /\ In a b /\ (n <= k < n + List.length batches)%nat /\
    row_of_article r a (clock k).
Proof.
  revert n d. induction batches as [|b rest IH]; intros n d; simpl.
  - intros H. left. exact H.
  - intros H. apply IH in H as [H|(b' & a & k & Hb' & Ha & Hk & Hr)].
    + apply store_all_rows_from in H as [H|(a & Ha & Hr)]; [left; exact H|].
      right. exists b, a, n.
      split; [left; reflexivity|]. split; [exact Ha|]. split; [lia | exact Hr].
    + right. exists b', a, k.
      split; [right; exact Hb'|]. split; [exact Ha|]. split; [lia | exact Hr].
Qed.

Lemma StronglySorted_snoc (l : list Z) (x : Z) :
  StronglySorted Z.lt l -> Forall (fun y => y < x) l ->
  StronglySorted Z.lt (l ++ [x]).
Proof.
  induction l as [|y l IH]; simpl; intros Hs Hall.
  - constructor; constructor.
  - inversion Hs as [|? ? Hs' Hy]; subst. inversion Hall as [|? ? Hyx Hall']; subst.
    constructor; [apply IH; assumption|].
    apply Forall_app. split; [exact Hy | constructor; [exact Hyx | constructor]].
Qed.

Lemma max_rowid_bound (rs : list row) :
  Forall (fun y => y <= max_rowid rs) (map row_id rs).
Proof.
  induction rs as [|r rs IH]; simpl; constructor.
  - apply Z.le_max_l.
  - eapply Forall_impl; [|exact IH]. simpl. intros y Hy.
    etransitivity; [exact Hy | apply Z.le_max_r].
Qed.

(** The [id]s go up along the table. *)
Definition ids_increase (d : database) : Prop :=
  StronglySorted Z.lt (map row_id (rows d)).

Lemma insert_or_ignore_ids (t u dp ex sa : string) (d : database) :
  ids_increase d -> ids_increase (insert_or_ignore t u dp ex sa d).
Proof.
  unfold ids_increase, insert_or_ignore. intros H.
  destruct (url_stored u (rows d)); simpl; [exact H|].
  rewrite map_app. simpl. apply StronglySorted_snoc; [exact H|].
  eapply Forall_impl; [|apply max_rowid_bound]. simpl. intros y Hy. lia.
Qed.

Lemma store_all_ids (sa : string) (articles : list article) (d : database) :
  ids_increase d -> ids_increase (store_all sa articles d).
Proof.
  revert d. induction articles as [|a rest IH]; intros d H; simpl.
  - exact H.
  - apply IH, insert_or_ignore_ids, H.
Qed.

Lemma store_batches_ids (clock : nat -> string) (batches : list (list article))
    (n : nat) (d : database) :
  ids_increase d -> ids_increase (store_batches clock batches n d).
Proof.
  revert n d. induction batches as [|b rest IH]; intros n d H; simpl.
  - exact H.
  - apply IH, store_all_ids, H.
Qed.

Section CrawlMore.

Variable base_url : string.
Variable urljoin : string -> string -> string.
Variable soup_select : string -> option (list block).
Variable net : network.

(** What [fetch_page] returns for a page; it is the same in every world. *)
Definition fetched (page : nat) : result string :=
  fst (fetch_page net (page_url base_url page) fresh_world).

Lemma fetched_any_world (page : nat) (w : world) :
  fst (fetch_page net (page_url base_url page) w) = fetched page.
Proof.
  unfold fetched.
  destruct (fetch_page_frame net (page_url base_url page)) as (v & sl & n & _ & H).
  rewrite !H. reflexivity.
Qed.

(** The batches [save_articles] is called with during the loop over
    [pages]: the records of every page fetched with a body and at least
    one record, up to the first page whose fetch raises. *)
Fixpoint crawl_batches (pages : list nat) : list (list article) :=
  match pages with
  | [] => []
  | page :: rest =>
      match fetched page with
      | Ok html =>
          (page_batches base_url urljoin soup_select html ++ crawl_batches rest)%list
      | Raise _ => []
      end
  end.

(** The requests of a loop over [pages] that asks [n] times for the
    [n]-th page, for the numbers [ns]. *)
Definition request_trace (pages : list nat) (ns : list nat) : list string :=
  List.concat (map (fun pn => repeat (page_url base_url (fst pn)) (snd pn))
              (combine pages ns)).

Lemma request_trace_length (pages ns : list nat) :
  Forall (fun n => (1 <= n <= 3)%nat) ns ->
  (List.length (request_trace pages ns) <= 3 * List.length pages)%nat.
Proof.
  unfold request_trace. revert ns.
  induction pages as [|p pages IH]; intros ns Hns; simpl; [lia|].
  destruct ns as [|n ns]; simpl; [lia|].
  inversion Hns; subst. rewrite length_app, repeat_length.
  specialize (IH ns H2). lia.
Qed.

Lemma scrape_page_effect (page : nat) :
  exists sl n,
    (1 <= n <= 3)%nat /\
    forall clock w,
      scrape_page base_url urljoin soup_select clock net page w
      = (match fetched page with Ok _ => Ok tt | Raise e => Raise e end,
         after_batches clock
           (match fetched page with
            | Ok html => page_batches base_url urljoin soup_select html
            | Raise _ => []
            end)
           sl (repeat (page_url base_url page) n) w).
Proof.
  unfold fetched.
  destruct (fetch_page_frame net (page_url base_url page)) as (v & sl & n & Hn & Hf).
  rewrite Hf. simpl. destruct v as [html|e].
  - unfold page_batches. destruct (truthy html) eqn:Hhtml.
    + destruct (parse_articles base_url urljoin soup_select html) as [|a rest] eqn:Hp.
      * exists (sl ++ [2])%list, n. split; [exact Hn|]. intros clock w.
        unfold scrape_page, bind. rewrite Hf, Hhtml, Hp. simpl.
        rewrite after_batches_nil. unfold ret. rewrite sleep_run, logged_logged.
        rewrite app_nil_r. reflexivity.
      * exists (sl ++ [2])%list, n. split; [exact Hn|]. intros clock w.
        unfold scrape_page, bind. rewrite Hf, Hhtml, Hp. simpl.
        rewrite save_articles_run, sleep_run.
        unfold after_batches, logged. simpl.
        rewrite app_nil_r, <- app_assoc, Nat.add_1_r. reflexivity.
    + exists sl, n. split; [exact Hn|]. intros clock w.
      unfold scrape_page, bind. rewrite Hf, Hhtml. simpl.
      rewrite after_batches_nil. reflexivity.
  - exists sl, n. split; [exact Hn|]. intros clock w.
    unfold scrape_page, bind. rewrite Hf, after_batches_nil. reflexivity.
Qed.

(** The loop over [pages], whole: its outcome, its requests and the
    batches it saves are fixed by the site. *)
Lemma scrape_pages_effect (pages : list nat) :
  exists v sl ns,
    (List.length ns <= List.length pages)%nat /\
    (v = Ok tt ->
     List.length ns = List.length pages /\
     forall page, In page pages -> exists html, fetched page = Ok html) /\
    Forall (fun n => (1 <= n <= 3)%nat) ns /\
    forall clock w,
      for_each pages (scrape_page base_url urljoin soup_select clock net) w
      = (v, after_batches clock (crawl_batches pages) sl (request_trace pages ns) w).
Proof.
  induction pages as [|page rest IH].
  - exists (Ok tt), [], []. split; [simpl; lia|]. split.
    { intros _. split; [reflexivity | intros page []]. }
    split; [constructor|]. intros clock w.
    simpl. rewrite after_batches_nil, logged_nil. reflexivity.
  - destruct (scrape_page_effect page) as (sl & n & Hn & Hpage).
    destruct IH as (v' & sl' & ns' & Hlen & Hok & Hns & Hrest).
    simpl crawl_batches. destruct (fetched page) as [html|e] eqn:Hf.
    + exists v', (sl ++ sl')%list, (n :: ns'). split; [simpl; lia|]. split.
      { intros Hv. destruct (Hok Hv) as [Hl Hall]. split; [simpl; lia|].
        intros page' [Hp|Hp]; [subst page'; exists html; exact Hf | apply Hall, Hp]. }
      split; [constructor; assumption|]. intros clock w.
      simpl for_each. unfold bind. rewrite Hpage, Hrest, after_batches_compose.
      reflexivity.
    + exists (Raise e), sl, [n]. split; [simpl; lia|]. split; [discriminate|].
      split; [constructor; [exact Hn | constructor]|]. intros clock w.
      simpl for_each. unfold bind. rewrite Hpage.
      unfold request_trace. destruct rest; simpl; rewrite app_nil_r; reflexivity.
Qed.

Lemma page_batches_In (html : string) (b : list article) :
  In b (page_batches base_url urljoin soup_select html) ->
  html <> "" /\ b = parse_articles base_url urljoin soup_select html.
Proof.
  unfold page_batches. destruct html as [|c html]; simpl; [intros []|].
  destruct (parse_articles base_url urljoin soup_select (String c html));
    [intros [] | intros [H|[]]].
  split; [discriminate | symmetry; exact H].
Qed.

Lemma crawl_batches_In (pages : list nat) (b : list article) :
  In b (crawl_batches pages) ->
  exists page html,
    In page pages /\ fetched page = Ok html /\ html <> "" /\
    b = parse_articles base_url urljoin soup_select html.
Proof.
  induction pages as [|page rest IH]; simpl; [intros []|].
  destruct (fetched page) as [html|e] eqn:Hf; [|intros []].
  intros H. apply in_app_or in H as [H|H].
  - apply page_batches_In in H as [Hne Hb].
    exists page, html. repeat split; auto.
  - destruct (IH H) as (page' & html' & Hin & Hf' & Hne & Hb).
    exists page', html'. repeat split; auto.
Qed.

Lemma crawl_batches_has (pages : list nat) (page : nat) (html : string)
    (a : article) :
  (forall p, In p pages -> exists h, fetched p = Ok h) ->
  In page pages -> fetched page = Ok html -> html <> "" ->
  In a (parse_articles base_url urljoin soup_select html) ->
  In (parse_articles base_url urljoin soup_select html) (crawl_batches pages).
Proof.
  intros Hall Hin Hf Hne Ha.
  induction pages as [|p rest IH]; [destruct Hin|]. simpl.
  destruct (Hall p (or_introl eq_refl)) as (h & Hp). rewrite Hp.
  apply in_or_app. destruct Hin as [Hin|Hin].
  - left. subst p. rewrite Hf in Hp. inversion Hp; subst h.
    unfold page_batches. destruct html as [|c html]; [contradiction|]. simpl.
    destruct (parse_articles base_url urljoin soup_select (String c html));
      [destruct Ha | left; reflexivity].
  - right. apply IH; [|exact Hin]. intros p' Hp'. apply Hall. right. exact Hp'.
Qed.

Lemma parsed_article_complete (html : string) (a : article) :
  In a (parse_articles base_url urljoin soup_select html) ->
  title a <> "" /\ url a <> "".
Proof.
  unfold parse_articles. destruct (soup_select html) as [bs|]; [|intros []].
  intros H. apply parse_blocks_In in H as (b & _ & Hb).
  apply parse_block_Some in Hb as (_ & _ & Ht & Hu).
  split; apply truthy_nonempty; assumption.
Qed.

End CrawlMore.

(** Every row has a title and a url: what [NOT NULL] asks of the two
    columns, and more. *)
Definition rows_complete (d : database) : Prop :=
  Forall (fun r => row_title r <> "" /\ row_url r <> "") (rows d).

Lemma StronglySorted_lt_NoDup (l : list Z) :
  StronglySorted Z.lt l -> NoDup l.
Proof.
  induction 1 as [|x l Hs IH Hx]; constructor; [|exact IH].
  intros Hin. rewrite Forall_forall in Hx. specialize (Hx x Hin). lia.
Qed.

Section CrawlProperties.

Variable base_url : string.
Variable urljoin : string -> string -> string.
Variable soup_select : string -> option (list block).
Variable clock : nat -> string.
Variable net : network.

(** X8.  The requests of a crawl, in order: for page 1, then page 2, and
    so on, each page one to three times in a row; no url is requested that
    is not a page of [range(1, max_pages + 1)], none is returned to, and
    the crawl stops short of [max_pages] only when an exception ends it.
    So a crawl makes at most [3 * max_pages] requests, and none at all for
    [max_pages <= 0]. *)
Theorem scrape_requests_pages_in_order (max_pages : Z) (w : world) :
  let run := scrape base_url urljoin soup_select clock net max_pages w in
  exists ns,
    (List.length ns <= Z.to_nat max_pages)%nat /\
    (fst run = Ok tt -> List.length ns = Z.to_nat max_pages) /\
    Forall (fun n => (1 <= n <= 3)%nat) ns /\
    requested (snd run)
    = (requested w ++ request_trace base_url (page_range max_pages) ns)%list /\
    (List.length (requested (snd run))
     <= List.length (requested w) + 3 * Z.to_nat max_pages)%nat.
Proof.
  simpl. unfold scrape.
  destruct (scrape_pages_effect base_url urljoin soup_select net
              (page_range max_pages)) as (v & sl & ns & Hlen & Hok & Hns & H).
  rewrite H. simpl. unfold page_range in Hlen, Hok. rewrite length_seq in Hlen, Hok.
  exists ns. split; [exact Hlen|]. split; [intros Hv; apply (Hok Hv)|].
  split; [exact Hns|]. split; [reflexivity|].
  rewrite length_app.
  pose proof (request_trace_length base_url (page_range max_pages) ns Hns) as Hb.
  unfold page_range in Hb at 2. rewrite length_seq in Hb. lia.
Qed.

(** X9.  A crawl stores nothing it did not find: every row of the table
    after the crawl was there before, or holds the title, url, date and
    excerpt of a record parsed from the body fetched for one of the pages
    of the crawl, stamped with a time read from the clock during the
    crawl. *)
Theorem stored_rows_come_from_fetched_pages (max_pages : Z) (w : world) (r : row) :
  let w' := snd (scrape base_url urljoin soup_select clock net max_pages w) in
  In r (rows (db w')) ->
  In r (rows (db w)) \/
  exists page html a k,
    In page (page_range max_pages) /\
    fst (fetch_page net (page_url base_url page) w) = Ok html /\
    html <> "" /\
    In a (parse_articles base_url urljoin soup_select html) /\
    row_of_article r a (clock k) /\
    (clock_reads w <= k < clock_reads w')%nat.
Proof.
  simpl. unfold scrape.
  destruct (scrape_pages_effect base_url urljoin soup_select net
              (page_range max_pages)) as (v & sl & ns & _ & _ & _ & H).
  rewrite H. simpl. intros Hr.
  apply store_batches_rows_from in Hr as [Hr|(b & a & k & Hb & Ha & Hk & Hrow)].
  - left. exact Hr.
  - right.
    apply crawl_batches_In in Hb as (page & html & Hin & Hf & Hne & Hbeq).
    exists page, html, a, k. subst b.
    rewrite fetched_any_world.
    split; [exact Hin|]. split; [exact Hf|]. split; [exact Hne|].
    split; [exact Ha|]. split; [exact Hrow | exact Hk].
Qed.

(** X10.  A crawl that ends without an exception has every record of its
    pages in the table: each record parsed from the non-empty body fetched
    for a page of the crawl has its url stored, by this crawl or before
    it. *)
Theorem fetched_records_are_stored (max_pages : Z) (w : world) (page : nat)
    (html : string) (a : article) :
  fst (scrape base_url urljoin soup_select clock net max_pages w) = Ok tt ->
  In page (page_range max_pages) ->
  fst (fetch_page net (page_url base_url page) w) = Ok html ->
  html <> "" ->
  In a (parse_articles base_url urljoin soup_select html) ->
  url_stored (url a)
    (rows (db (snd (scrape base_url urljoin soup_select clock net max_pages w))))
  = true.
Proof.
  unfold scrape.
  destruct (scrape_pages_effect base_url urljoin soup_select net
              (page_range max_pages)) as (v & sl & ns & _ & Hok & _ & H).
  rewrite H. simpl. intros Hv Hin Hf Hne Ha.
  rewrite fetched_any_world in Hf.
  apply store_batches_stores
    with (b := parse_articles base_url urljoin soup_select html); [|exact Ha].
  apply (crawl_batches_has base_url urljoin soup_select net _ page html a);
    auto. apply (Hok Hv).
Qed.

(** X11.  A crawl keeps the table complete: when every row has a
    non-empty title and a non-empty url before the crawl, so has every row
    after it.  No insert of a crawl can fail on [NOT NULL]. *)
Theorem crawl_keeps_rows_complete (max_pages : Z) (w : world) :
  rows_complete (db w) ->
  rows_complete
    (db (snd (scrape base_url urljoin soup_select clock net max_pages w))).
Proof.
  unfold rows_complete, scrape. rewrite !Forall_forall.
  destruct (scrape_pages_effect base_url urljoin soup_select net
              (page_range max_pages)) as (v & sl & ns & _ & _ & _ & H).
  rewrite H. simpl. intros Hw r Hr.
  apply store_batches_rows_from in Hr as [Hr|(b & a & k & Hb & Ha & _ & Hrow)].
  - apply Hw, Hr.
  - apply crawl_batches_In in Hb as (page & html & _ & _ & _ & Hbeq). subst b.
    apply parsed_article_complete in Ha as [Ht Hu].
    destruct Hrow as (Et & Eu & _). rewrite Et, Eu. split; assumption.
Qed.

(** X12.  A crawl keeps the [id]s of the table going up in insertion
    order, so that no two rows share an [id] ([PRIMARY KEY
    AUTOINCREMENT]): every row it adds gets an [id] above all the [id]s of
    the table. *)
Theorem crawl_keeps_ids_increasing (max_pages : Z) (w : world) :
  ids_increase (db w) ->
  let d' := db (snd (scrape base_url urljoin soup_select clock net max_pages w)) in
  ids_increase d' /\ NoDup (map row_id (rows d')).
Proof.
  intros Hw. simpl. unfold scrape.
  destruct (scrape_pages_effect base_url urljoin soup_select net
              (page_range max_pages)) as (v & sl & ns & _ & _ & _ & H).
  rewrite H. simpl.
  assert (Hd : ids_increase
                 (store_batches clock
                    (crawl_batches base_url urljoin soup_select net
                       (page_range max_pages))
                    (clock_reads w) (db w))).
  { apply store_batches_ids, Hw. }
  split; [exact Hd | apply StronglySorted_lt_NoDup, Hd].
Qed.

(** X13.  An exception that leaves [fetch_page] ends the crawl there: when
    the loop has gone through [done] and the fetch of the next page raises,
    [scrape] raises the same exception, no page after it is requested, and
    the table is as the pages gone through left it. *)
Theorem exception_ends_crawl (done later : list nat) (page : nat)
    (w w1 w2 : world) (e : exn) :
  for_each done (scrape_page base_url urljoin soup_select clock net) w
  = (Ok tt, w1) ->
  fetch_page net (page_url base_url page) w1 = (Raise e, w2) ->
  for_each (done ++ page :: later)
    (scrape_page base_url urljoin soup_select clock net) w
  = (Raise e, w2)
  /\ db w2 = db w1
  /\ exists n, (1 <= n <= 3)%nat /\
       requested w2 = (requested w1 ++ repeat (page_url base_url page) n)%list.
Proof.
  intros Hdone Hf. split; [|split].
  - rewrite for_each_app. unfold bind at 1. rewrite Hdone. simpl.
    unfold bind at 1. unfold scrape_page, bind. rewrite Hf. reflexivity.
  - apply (fetch_page_keeps_db net _ _ _ _ Hf).
  - destruct (fetch_page_frame net (page_url base_url page)) as (v & sl & n & Hn & H).
    rewrite H in Hf. inversion Hf. exists n. split; [exact Hn | reflexivity].
Qed.

End CrawlProperties.

(** ** The program: [main] *)





Section Main.

Variable urljoin : string -> string -> string.
Variable soup_select : string -> option (list block).
Variable clock : nat -> string.
Variable net : network.




End Main.

(** ** The table after a crawl, as [get_stored_articles] reads it *)

Lemma stored_urls_select (d : database) :
  stored_urls d = map stored_url (select_articles d).
Proof. unfold stored_urls, select_articles. rewrite map_map. reflexivity. Qed.

Lemma stored_urls_store_all (sa : string) (articles : list article)
    (d : database) :
  stored_urls (store_all sa articles d)
  = (stored_urls d ++ map url (first_new (stored_urls d) articles))%list.
Proof.
  rewrite (stored_urls_select (store_all sa articles d)).
  rewrite select_articles_store_all, map_app, <- stored_urls_select, map_map.
  reflexivity.
Qed.

(** The entries a run of [save_articles] calls adds, one call per batch:
    the articles of each batch that are new to the table as the batches
    before it left it, stamped with the clock reading of their call. *)
Fixpoint new_entries (clock : nat -> string) (n : nat) (known : list string)
    (batches : list (list article)) : list stored_article :=
  match batches with
  | [] => []
  | b :: rest =>
      (map (stamped (clock n)) (first_new known b)
       ++ new_entries clock (S n) (known ++ map url (first_new known b)) rest)%list
  end.

Lemma select_articles_store_batches (clock : nat -> string)
    (batches : list (list article)) (n : nat) (d : database) :
  select_articles (store_batches clock batches n d)
  = (select_articles d ++ new_entries clock n (stored_urls d) batches)%list.
Proof.
  revert n d. induction batches as [|b rest IH]; intros n d; simpl.
  - rewrite app_nil_r. reflexivity.
  - rewrite IH, select_articles_store_all, stored_urls_store_all, app_assoc.
    reflexivity.
Qed.

(** X15.  What [get_stored_articles] returns after a crawl, whether the
    crawl returned or raised: the entries the table had, then, page after
    page in the order of the crawl, one entry for each record whose url
    was not yet in the table, records of one page in the order of the page
    and under one time stamp, successive pages that had records under
    successive readings of the clock. *)
Theorem crawl_appends_new_records_in_page_order
    (base_url : string) (urljoin : string -> string -> string)
    (soup_select : string -> option (list block)) (clock : nat -> string)
    (net : network) (max_pages : Z) (w : world) :
  let w' := snd (scrape base_url urljoin soup_select clock net max_pages w) in
  get_stored_articles w'
  = (Ok (select_articles (db w)
         ++ new_entries clock (clock_reads w) (stored_urls (db w))
              (crawl_batches base_url urljoin soup_select net
                 (page_range max_pages)))%list,
     w').
Proof.
  simpl. unfold scrape, get_stored_articles.
  destruct (scrape_pages_effect base_url urljoin soup_select net
              (page_range max_pages)) as (v & sl & ns & _ & _ & _ & H).
  rewrite H. simpl. rewrite select_articles_store_batches. reflexivity.
Qed.

(** * The further properties at concrete inputs *)

Module WitnessMore.

Import Demo.
Import Witness.

(** A site whose first request fails at the network level and whose
    second runs into the total timeout, which is no [ClientError]. *)
Definition times_out (_ : string) (k : nat) : get_outcome :=
  if (k <? 1)%nat then Throws ClientError else Throws OtherError.

(** Two network errors, then a [429] that asks for 9 seconds. *)
Definition limited_at_last (_ : string) (k : nat) : get_outcome :=
  if (k <? 2)%nat then Throws ClientError
  else Responds (mkResponse 429 (Some "9") "").

(** Page 1 lists story A; every request for another url times out. *)
Definition second_page_times_out (u : string) (k : nat) : get_outcome :=
  if String.eqb u base then Responds (mkResponse 200 None "<html>A</html>")
  else Throws OtherError.

(** The row the crawl of [gap_at_three] writes for story B in the table
    that holds story A. *)
Definition row_b : row :=
  mkRow 3 "Startup B ships" "https://techcrunch.com/2024/05/02/b/"
        "2024-05-02T09:00:00" "B ships." "2024-05-10T12:00:01".

Lemma first_answer_ends_fetch_witness :
  fetch_page first_page_gone base fresh_world
  = (Ok "", logged [] [base] fresh_world).
Proof.
  apply (first_answer_ends_fetch first_page_gone base fresh_world
           (mkResponse 404 None "Not Found")).
  - reflexivity.
  - discriminate.
Defined.

Lemma last_rate_limit_is_waited_out_witness :
  exists sl,
    fetch_page limited_at_last base fresh_world
    = (Ok "", logged (sl ++ [9]) (repeat base 3) fresh_world).
Proof.
  apply (last_rate_limit_is_waited_out limited_at_last base fresh_world
           (mkResponse 429 (Some "9") "") 9).
  - intros j Hj. left. destruct j as [|[|j]]; [reflexivity | reflexivity | lia].
  - reflexivity.
  - reflexivity.
  - reflexivity.
Defined.

Lemma other_exception_escapes_fetch_witness :
  exists sl,
    fetch_page times_out base fresh_world
    = (Raise OtherError, logged sl (repeat base 2) fresh_world).
Proof.
  apply (other_exception_escapes_fetch times_out base fresh_world 1 OtherError).
  - lia.
  - intros j Hj. left. destruct j as [|j]; [reflexivity | lia].
  - reflexivity.
  - discriminate.
Defined.

Lemma parse_articles_keeps_well_formed_blocks_witness :
  (List.length (parse_articles base Url.urljoin soup "<html>five</html>") <= 5)%nat.
Proof.
  apply (proj2 (parse_articles_keeps_well_formed_blocks base Url.urljoin soup
                  "<html>five</html>")
           [story_a; story_b; untitled; story_c; story_d]).
  reflexivity.
Defined.

Lemma saved_articles_are_read_back_witness :
  fst (get_stored_articles
         (snd (save_articles clock
                 (parse_articles base Url.urljoin soup "<html>B</html>") holds_a)))
  = Ok (select_articles (db holds_a)
        ++ map (stamped (clock 0))
             (parse_articles base Url.urljoin soup "<html>B</html>"))%list.
Proof.
  apply (saved_articles_are_read_back clock
           (parse_articles base Url.urljoin soup "<html>B</html>") holds_a).
  - vm_compute. constructor; [intros [] | constructor].
  - intros a Ha. vm_compute in Ha. destruct Ha as [Ha|[]]. subst a. reflexivity.
Defined.

Lemma scrape_requests_pages_in_order_witness :
  exists ns,
    (List.length ns <= 5)%nat /\
    (fst (crawl_of gap_at_three 5 holds_a) = Ok tt -> List.length ns = 5%nat) /\
    Forall (fun n => (1 <= n <= 3)%nat) ns /\
    requested (snd (crawl_of gap_at_three 5 holds_a))
    = (requested holds_a ++ request_trace base [1; 2; 3; 4; 5]%nat ns)%list /\
    (List.length (requested (snd (crawl_of gap_at_three 5 holds_a)))
     <= List.length (requested holds_a) + 3 * 5)%nat.
Proof.
  apply (scrape_requests_pages_in_order base Url.urljoin soup clock gap_at_three
           5 holds_a).
Defined.

Lemma stored_rows_come_from_fetched_pages_witness :
  In row_b (rows (db holds_a)) \/
  exists page html a k,
    In page (page_range 5) /\
    fst (fetch_page gap_at_three (page_url base page) holds_a) = Ok html /\
    html <> "" /\
    In a (parse_articles base Url.urljoin soup html) /\
    row_of_article row_b a (clock k) /\
    (clock_reads holds_a <= k
     < clock_reads (snd (crawl_of gap_at_three 5 holds_a)))%nat.
Proof.
  apply (stored_rows_come_from_fetched_pages base Url.urljoin soup clock
           gap_at_three 5 holds_a row_b).
  vm_compute. right. left. reflexivity.
Defined.

Lemma fetched_records_are_stored_witness :
  url_stored "https://techcrunch.com/category/startups/story-c/"
    (rows (db (snd (crawl_of gap_at_three 5 holds_a))))
  = true.
Proof.
  apply (fetched_records_are_stored base Url.urljoin soup clock gap_at_three
           5 holds_a 4%nat "<html>C</html>" (record_of base Url.urljoin story_c)).
  - vm_compute. reflexivity.
  - simpl. do 3 right. left. reflexivity.
  - vm_compute. reflexivity.
  - discriminate.
  - left. reflexivity.
Defined.

Lemma crawl_keeps_rows_complete_witness :
  rows_complete (db (snd (crawl_of gap_at_three 5 holds_a))).
Proof.
  apply (crawl_keeps_rows_complete base Url.urljoin soup clock gap_at_three
           5 holds_a).
  constructor; [split; discriminate | constructor].
Defined.

Lemma crawl_keeps_ids_increasing_witness :
  ids_increase (db (snd (crawl_of gap_at_three 5 holds_a)))
  /\ NoDup (map row_id (rows (db (snd (crawl_of gap_at_three 5 holds_a))))).
Proof.
  apply (crawl_keeps_ids_increasing base Url.urljoin soup clock gap_at_three
           5 holds_a).
  unfold ids_increase. simpl. constructor; constructor.
Defined.

Lemma exception_ends_crawl_witness :
  for_each ([1%nat] ++ 2%nat :: [3%nat])
    (scrape_page base Url.urljoin soup clock second_page_times_out) fresh_world
  = (Raise OtherError,
     snd (crawl_of second_page_times_out 2 fresh_world))
  /\ db (snd (crawl_of second_page_times_out 2 fresh_world))
     = db (snd (crawl_of second_page_times_out 1 fresh_world))
  /\ exists n, (1 <= n <= 3)%nat /\
       requested (snd (crawl_of second_page_times_out 2 fresh_world))
       = (requested (snd (crawl_of second_page_times_out 1 fresh_world))
          ++ repeat (page_url base 2) n)%list.
Proof.
  apply (exception_ends_crawl base Url.urljoin soup clock second_page_times_out
           [1%nat] [3%nat] 2%nat fresh_world
           (snd (crawl_of second_page_times_out 1 fresh_world))
           (snd (crawl_of second_page_times_out 2 fresh_world)) OtherError).
  - vm_compute. reflexivity.
  - vm_compute. reflexivity.
Defined.


End WitnessMore.

(** ** The urls of the pages *)

Lemma append_cancel_l (s a b : string) : s ++ a = s ++ b -> a = b.
Proof.
  induction s as [|c s IH]; simpl; intros H; [exact H|].
  inversion H. apply IH. assumption.
Qed.

Lemma append_slash_cancel (a b : string) : a ++ "/" = b ++ "/" -> a = b.
Proof.
  revert b. induction a as [|c a IH]; intros [|d b]; simpl; intros H.
  - reflexivity.
  - inversion H as [[Hc Hb]]. destruct b; discriminate Hb.
  - inversion H as [[Hc Ha]]. destruct a; discriminate Ha.
  - inversion H. f_equal. apply IH. assumption.
Qed.

Lemma append_length (s t : string) :
  String.length (s ++ t) = (String.length s + String.length t)%nat.
Proof. induction s as [|c s IH]; simpl; [reflexivity | rewrite IH; reflexivity]. Qed.

Lemma to_uint_nonnil (n : nat) : Nat.to_uint n <> Decimal.Nil.
Proof.
  rewrite <- (DecimalNat.Unsigned.of_to n) at 1.
  rewrite DecimalNat.Unsigned.to_of. apply DecimalFacts.unorm_nonnil.
Qed.

Lemma str_of_nat_inj (n m : nat) : str_of_nat n = str_of_nat m -> n = m.
Proof.
  unfold str_of_nat. intros H.
  apply DecimalNat.Unsigned.to_uint_inj.
  pose proof (NilZero.usu (Nat.to_uint n) (to_uint_nonnil n)) as Hn.
  pose proof (NilZero.usu (Nat.to_uint m) (to_uint_nonnil m)) as Hm.
  rewrite H, Hm in Hn. inversion Hn. reflexivity.
Qed.

(** X16.  Two different pages of a crawl never have the same url: page 1
    is [base_url] itself and page [n > 1] is [base_url] followed by
    [page/n/], so the urls of [range(1, max_pages + 1)] are pairwise
    distinct and each page is fetched by one call of [fetch_page]. *)
Theorem page_urls_are_distinct (base_url : string) :
  (forall p q,
      (1 <= p)%nat -> (1 <= q)%nat -> p <> q ->
      page_url base_url p <> page_url base_url q)
  /\ forall max_pages, NoDup (map (page_url base_url) (page_range max_pages)).
Proof.
  assert (Hinj : forall p q,
             (1 <= p)%nat -> (1 <= q)%nat ->
             page_url base_url p = page_url base_url q -> p = q).
  { intros p q Hp Hq. unfold page_url.
    destruct (Nat.ltb_spec 1 p) as [Hp1|Hp1];
      destruct (Nat.ltb_spec 1 q) as [Hq1|Hq1]; intros H.
    - apply append_cancel_l in H. apply append_cancel_l in H.
      apply append_slash_cancel in H. apply str_of_nat_inj, H.
    - exfalso. apply (f_equal String.length) in H.
      rewrite !append_length in H. simpl in H. lia.
    - exfalso. apply (f_equal String.length) in H.
      rewrite !append_length in H. simpl in H. lia.
    - lia. }
  split; [intros p q Hp Hq Hne H; apply Hne, Hinj; assumption|].
  intros max_pages. unfold page_range.
  generalize (Z.to_nat max_pages) as n. intros n.
  assert (Hgen : forall k, (1 <= k)%nat -> NoDup (map (page_url base_url) (seq k n))).
  { induction n as [|n IH]; intros k Hk; simpl; constructor.
    - intros Hin. apply in_map_iff in Hin as (q & Hq & Hin).
      apply in_seq in Hin. apply Hinj in Hq; lia.
    - apply IH. lia. }
  apply Hgen. lia.
Qed.

Lemma page_urls_are_distinct_witness :
  page_url default_base_url 2 <> page_url default_base_url 12
  /\ NoDup (map (page_url default_base_url) (page_range 5)).
Proof.
  split.
  - apply (proj1 (page_urls_are_distinct default_base_url) 2%nat 12%nat); lia.
  - apply (proj2 (page_urls_are_distinct default_base_url) 5).
Defined.
